(** * Dilay, tool/trim-mesh/border: the trimming border and its segments

    A shallow embedding of [ToolTrimMeshBorderSegment::Impl] and
    [ToolTrimMeshBorder::Impl] (the variant with offset, reversal and
    [onlyObtuseAngles]), together with the properties of the border
    that the design document states.

    Conventions of the embedding.
    - [float] arithmetic is kept abstract ([Scalar]): the control flow of the
      border never depends on how sums and products are rounded, so every
      theorem holds for any arithmetic, IEEE single precision included.
    - The geometric primitives ([PrimRay], [PrimPlane], [IntersectionUtil],
      [Camera], [Util]) are declared in headers outside this translation
      unit; they are an interface here ([Primitives], [Camera]).
    - [assert], [DILAY_IMPOSSIBLE] and the exception thrown by
      [std::vector::at] stop the program; they are the [Abort] results of
      the [Result] monad (debug build, asserts enabled).
    - [unsigned int] values are [N] (polyline indices, counters) or [nat]
      (positions in a vector), with truncation to 32 bits written out where
      the code converts or increments. *)

From Stdlib Require Import List Bool Arith NArith ZArith Lia.
Import ListNotations.

Set Implicit Arguments.

(** ** Fatal stops and the result monad *)

Inductive Fatal : Type :=
| AssertNumPoints      (* assert (n >= 2) *)
| AssertOnBorder       (* assert (this->onBorder (p)) *)
| AssertPolylineOpen   (* assert (this->polylines.empty () == false) *)
| AssertValidIndex     (* assert (newIndices.at (i) != Util::invalidIndex ()) *)
| AssertWasAdded       (* assert (wasAdded) *)
| AssertSegmentIndex   (* assert (i < this->numSegments ()) *)
| AssertEdge           (* assert (this->edge2) *)
| OutOfRange           (* std::out_of_range thrown by vector::at *)
| Impossible.          (* DILAY_IMPOSSIBLE *)

Inductive Result (A : Type) : Type :=
| Ok (a : A)
| Abort (f : Fatal).

Arguments Ok {A} a.
Arguments Abort {A} f.

Definition bind {A B : Type} (r : Result A) (k : A -> Result B) : Result B :=
  match r with
  | Ok a => k a
  | Abort f => Abort f
  end.

Notation "x <- r ;; k" := (bind r (fun x => k))
  (at level 61, r at next level, right associativity).

Definition assert (c : bool) (f : Fatal) : Result unit :=
  if c then Ok tt else Abort f.

Definition isOk {A : Type} (r : Result A) : bool :=
  match r with Ok _ => true | Abort _ => false end.

(** A range-based [for] over a vector whose body may stop the program and
    which updates the elements in place. *)
Fixpoint forEach {A : Type} (body : A -> Result A) (l : list A) : Result (list A) :=
  match l with
  | [] => Ok []
  | a :: t =>
      a' <- body a ;;
      t' <- forEach body t ;;
      Ok (a' :: t')
  end.

(** A counting [for (i = start; ...; i++)] of [count] rounds whose body may
    [return]: [Some r] is an early return of [r], [None] falls through. *)
Fixpoint forReturn {A : Type} (count start : nat) (body : nat -> option A) : option A :=
  match count with
  | O => None
  | S c =>
      match body start with
      | Some r => Some r
      | None => forReturn c (S start) body
      end
  end.

(** ** Scalars and glm vectors *)

Class Scalar : Type := {
  float : Type;
  f0 : float;                          (* 0.0f *)
  fadd : float -> float -> float;
  fsub : float -> float -> float;
  fmul : float -> float -> float;
  flt : float -> float -> bool         (* operator< *)
}.

Section Vectors.
Context {SC : Scalar}.

Record vec3 : Type := Vec3 { vx : float; vy : float; vz : float }.

(* glm::vec3 v (0.0f) *)
Definition vzero : vec3 := Vec3 f0 f0 f0.

Definition vadd (a b : vec3) : vec3 :=
  Vec3 (fadd (vx a) (vx b)) (fadd (vy a) (vy b)) (fadd (vz a) (vz b)).

Definition vsub (a b : vec3) : vec3 :=
  Vec3 (fsub (vx a) (vx b)) (fsub (vy a) (vy b)) (fsub (vz a) (vz b)).

(* float * vec3 *)
Definition vscale (s : float) (a : vec3) : vec3 :=
  Vec3 (fmul s (vx a)) (fmul s (vy a)) (fmul s (vz a)).

(* glm::dot: tmp = a * b; tmp.x + tmp.y + tmp.z *)
Definition dot (a b : vec3) : float :=
  fadd (fadd (fmul (vx a) (vx b)) (fmul (vy a) (vy b))) (fmul (vz a) (vz b)).

(* glm::cross *)
Definition cross (a b : vec3) : vec3 :=
  Vec3 (fsub (fmul (vy a) (vz b)) (fmul (vy b) (vz a)))
       (fsub (fmul (vz a) (vx b)) (fmul (vz b) (vx a)))
       (fsub (fmul (vx a) (vy b)) (fmul (vx b) (vy a))).
End Vectors.

(* glm::ivec2 *)
Definition ivec2 : Type := (Z * Z)%type.

(** ** The primitives the border is built on

    [PrimRay], [PrimPlane], [IntersectionUtil::intersects], [glm::normalize]
    and the [Util] helpers are not part of this translation unit.  The
    border only constructs rays and planes, reads them back and asks the
    tests below; nothing more is assumed of them. *)

Class Primitives {SC : Scalar} : Type := {
  normalize : vec3 -> vec3;                       (* glm::normalize *)
  PrimRay : Type;
  mkRay : vec3 -> vec3 -> PrimRay;                (* PrimRay (origin, direction) *)
  origin : PrimRay -> vec3;
  direction : PrimRay -> vec3;
  onRay : PrimRay -> vec3 -> bool;
  pointAt : PrimRay -> float -> vec3;
  PrimPlane : Type;
  mkPlane : vec3 -> vec3 -> PrimPlane;            (* PrimPlane (point, normal) *)
  point : PrimPlane -> vec3;
  normal : PrimPlane -> vec3;
  onPlane : PrimPlane -> vec3 -> bool;
  (* IntersectionUtil::intersects (ray, plane, &t): [Some t] when it
     returns true and has written [t] *)
  intersectsRayPlane : PrimRay -> PrimPlane -> option float;
  midpoint : vec3 -> vec3 -> vec3;                (* Util::midpoint *)
  invalidIndex : N                                (* Util::invalidIndex () *)
}.

(** The camera, as far as the border uses it. *)
Record Camera {SC : Scalar} {PR : Primitives} : Type := {
  ray : ivec2 -> PrimRay;        (* cam.ray (screenPoint) *)
  position : vec3                (* cam.position () *)
}.

Arguments Camera {SC PR}.

(** [unsigned int]: 32 bits, arithmetic modulo [2^32]. *)
Definition u32 (x : N) : N := (x mod 2 ^ 32)%N.

(** ** ToolTrimMeshBorderSegment *)

Module Segment.
Section Defs.
Context {SC : Scalar} {PR : Primitives}.

Definition Polyline : Type := list N.          (* std::vector<unsigned int> *)
Definition Polylines : Type := list Polyline.  (* std::vector<Polyline> *)

(* [Maybe<PrimRay>] is [option PrimRay]. *)
Record t : Type := {
  polylines : Polylines;
  plane : PrimPlane;
  edge1 : option PrimRay;
  edge2 : option PrimRay
}.

(* Impl (const PrimRay& e1, const PrimRay& e2) *)
Definition ofRayRay (e1 e2 : PrimRay) : t :=
  {| polylines := [];
     plane := mkPlane (origin e1) (cross (direction e2) (direction e1));
     edge1 := Some e1;
     edge2 := Some e2 |}.

(* Impl (const PrimPlane& p, const PrimRay& e) *)
Definition ofPlaneRay (p : PrimPlane) (e : PrimRay) : t :=
  {| polylines := []; plane := p; edge1 := None; edge2 := Some e |}.

(* Impl (const PrimRay& e, const PrimPlane& p) *)
Definition ofRayPlane (e : PrimRay) (p : PrimPlane) : t :=
  {| polylines := []; plane := p; edge1 := Some e; edge2 := None |}.

(* Impl (const PrimPlane& p) *)
Definition ofPlane (p : PrimPlane) : t :=
  {| polylines := []; plane := p; edge1 := None; edge2 := None |}.

Definition withPolylines (s : t) (pls : Polylines) : t :=
  {| polylines := pls; plane := plane s; edge1 := edge1 s; edge2 := edge2 s |}.

Definition edge (s : t) : Result PrimRay :=
  match edge2 s with
  | Some e => Ok e
  | None => Abort AssertEdge
  end.

Definition isValidProjection (s : t) (p : vec3) : bool :=
  let c1 :=
    match edge1 s with
    | Some e => flt f0 (dot (normal (plane s)) (cross (vsub p (origin e)) (direction e)))
    | None => true
    end in
  let c2 :=
    match edge2 s with
    | Some e => flt f0 (dot (normal (plane s)) (cross (direction e) (vsub p (origin e))))
    | None => true
    end in
  c1 && c2.

(* this->edge && this->edge->onRay (p) *)
Definition edgeOnRay (e : option PrimRay) (p : vec3) : bool :=
  match e with
  | Some r => onRay r p
  | None => false
  end.

(** [onBorder (p, &onEdge)]: the returned pair is the result and the value
    stored through [onEdge]; every branch stores one. *)
Definition onBorder (s : t) (p : vec3) : bool * bool :=
  if edgeOnRay (edge1 s) p then (true, true)
  else if edgeOnRay (edge2 s) p then (true, true)
  else if onPlane (plane s) p then (isValidProjection s p, false)
  else (false, false).

(** [intersects (ray, t)]: the result, and the parameter written to [t]. *)
Definition intersects (s : t) (r : PrimRay) : bool * option float :=
  match intersectsRayPlane r (plane s) with
  | Some d => (isValidProjection s (pointAt r d), Some d)
  | None => (false, None)
  end.

(* this->polylines.back ().emplace_back (index) *)
Fixpoint pushToBack (pls : Polylines) (index : N) : Polylines :=
  match pls with
  | [] => []
  | [p] => [p ++ [index]]
  | p :: rest => p :: pushToBack rest index
  end.

(* this->polylines.empty () *)
Definition isEmpty_polylines (s : t) : bool :=
  match polylines s with [] => true | _ => false end.

Definition addVertex (s : t) (index : N) (p : vec3) : Result t :=
  _ <- assert (fst (onBorder s p)) AssertOnBorder ;;
  _ <- assert (negb (isEmpty_polylines s)) AssertPolylineOpen ;;
  Ok (withPolylines s (pushToBack (polylines s) index)).

Definition addPolyline (s : t) : t :=
  withPolylines s (polylines s ++ [[]]).

(* newIndices.at (i) *)
Definition at_ (newIndices : list N) (i : N) : Result N :=
  match nth_error newIndices (N.to_nat i) with
  | Some v => Ok v
  | None => Abort OutOfRange
  end.

Definition setNewIndex (newIndices : list N) (i : N) : Result N :=
  v <- at_ newIndices i ;;
  _ <- assert (negb (N.eqb v invalidIndex)) AssertValidIndex ;;
  at_ newIndices i.

Definition setNewIndices (s : t) (newIndices : list N) : Result t :=
  pls <- forEach (forEach (setNewIndex newIndices)) (polylines s) ;;
  Ok (withPolylines s pls).

Definition isEmpty (p : Polyline) : bool :=
  match p with [] => true | _ => false end.

(* erase (remove_if (..., p.empty ()), end) *)
Definition deleteEmptyPolylines (s : t) : t :=
  withPolylines s (filter (fun p => negb (isEmpty p)) (polylines s)).

Definition hasVertices (s : t) : bool :=
  existsb (fun p => negb (isEmpty p)) (polylines s).

End Defs.
End Segment.

(** Counting loops that run to the end: [forUp count start] is
    [for (i = start; ...; i++)] and [forDown count start] is
    [for (i = start; ...; i--)], [count] rounds each. *)
Fixpoint forUp {St : Type} (count start : nat) (body : nat -> St -> St) (s : St) : St :=
  match count with
  | O => s
  | S c => forUp c (S start) body (body start s)
  end.

Fixpoint forDown {St : Type} (count start : nat) (body : nat -> St -> St) (s : St) : St :=
  match count with
  | O => s
  | S c => forDown c (pred start) body (body start s)
  end.

(** ** ToolTrimMeshBorder *)

Module Border.
Section Defs.
Context {SC : Scalar} {PR : Primitives}.

(** The [DynamicMesh&] member is only handed back by its getter; no
    operation of the border reads it, and it is left out. *)
Record t : Type := { segments : list Segment.t }.

(* points[i]; every index the constructor uses is below points.size () *)
Definition pointAtIndex (points : list ivec2) (i : nat) : ivec2 :=
  nth i points (0%Z, 0%Z).

Section Construction.
Variables (cam : Camera) (points : list ivec2) (offset : float) (reverse : bool).

(* const unsigned int n = points.size () *)
Definition numPoints : nat := N.to_nat (u32 (N.of_nat (length points))).

Definition rFirst : PrimRay :=
  ray cam (pointAtIndex points (if reverse then numPoints - 1 else 0)).

Definition rLast : PrimRay :=
  ray cam (pointAtIndex points (if reverse then 0 else numPoints - 1)).

Definition baseNormal : vec3 :=
  normalize (cross (direction rLast) (direction rFirst)).

Definition makePlane (i1 i2 : nat) : PrimPlane :=
  let r1 := ray cam (pointAtIndex points i1) in
  let r2 := ray cam (pointAtIndex points i2) in
  let normal := normalize (cross (direction r2) (direction r1)) in
  let point := vadd (position cam) (vscale offset baseNormal) in
  mkPlane point normal.

Definition makeRay (i : nat) : PrimRay :=
  let r := ray cam (pointAtIndex points i) in
  mkRay (vadd (origin r) (vscale offset baseNormal)) (direction r).

(* this->segments.emplace_back (...) *)
Definition emplace_back (segs : list Segment.t) (s : Segment.t) : list Segment.t :=
  segs ++ [s].

Definition make : Result t :=
  let n := numPoints in
  _ <- assert (2 <=? n) AssertNumPoints ;;
  if n =? 2 then
    if negb reverse then
      Ok {| segments := emplace_back [] (Segment.ofPlane (makePlane 0 1)) |}
    else
      Ok {| segments := emplace_back [] (Segment.ofPlane (makePlane 1 0)) |}
  else
    if negb reverse then
      let s1 := emplace_back [] (Segment.ofPlaneRay (makePlane 0 1) (makeRay 1)) in
      let s2 :=
        forUp ((n - 2) - 1) 1
          (fun i segs => emplace_back segs (Segment.ofRayRay (makeRay i) (makeRay (i + 1))))
          s1 in
      Ok {| segments :=
              emplace_back s2
                (Segment.ofRayPlane (makeRay (n - 2)) (makePlane (n - 2) (n - 1))) |}
    else
      let s1 :=
        emplace_back [] (Segment.ofPlaneRay (makePlane (n - 1) (n - 2)) (makeRay (n - 2))) in
      let s2 :=
        forDown ((n - 2) - 1) (n - 2)
          (fun i segs => emplace_back segs (Segment.ofRayRay (makeRay i) (makeRay (i - 1))))
          s1 in
      Ok {| segments := emplace_back s2 (Segment.ofRayPlane (makeRay 1) (makePlane 1 0)) |}.

End Construction.

Definition numSegments (b : t) : nat := length (segments b).

Definition segment (b : t) (i : nat) : Result Segment.t :=
  match nth_error (segments b) i with
  | Some s => Ok s
  | None => Abort AssertSegmentIndex
  end.

Fixpoint getSegmentFrom (segs : list Segment.t) (v1 v2 : vec3) : Result Segment.t :=
  match segs with
  | [] => Abort Impossible
  | s :: rest =>
      let '(on1, onEdge1) := Segment.onBorder s v1 in
      (* && does not evaluate its right operand, and onEdge2 stays false *)
      let '(on2, onEdge2) := if on1 then Segment.onBorder s v2 else (false, false) in
      if on1 && on2 && (negb onEdge1 || negb onEdge2) then Ok s
      else getSegmentFrom rest v1 v2
  end.

Definition getSegment (b : t) (v1 v2 : vec3) : Result Segment.t :=
  getSegmentFrom (segments b) v1 v2.

(** The loop of [addVertex]; [wasAdded] is threaded through it. *)
Fixpoint addVertexLoop (segs : list Segment.t) (index : N) (p : vec3) (wasAdded : bool)
  : Result (list Segment.t * bool) :=
  match segs with
  | [] => Ok ([], wasAdded)
  | s :: rest =>
      if fst (Segment.onBorder s p) then
        s' <- Segment.addVertex s index p ;;
        r <- addVertexLoop rest index p true ;;
        Ok (s' :: fst r, snd r)
      else
        r <- addVertexLoop rest index p wasAdded ;;
        Ok (s :: fst r, snd r)
  end.

Definition addVertex (b : t) (index : N) (p : vec3) : Result t :=
  r <- addVertexLoop (segments b) index p false ;;
  _ <- assert (snd r) AssertWasAdded ;;
  Ok {| segments := fst r |}.

Definition addPolyline (b : t) : t :=
  {| segments := map Segment.addPolyline (segments b) |}.

Definition setNewIndices (b : t) (newIndices : list N) : Result t :=
  segs <- forEach (fun s => Segment.setNewIndices s newIndices) (segments b) ;;
  Ok {| segments := segs |}.

Definition onBorder (b : t) (p : vec3) : bool :=
  existsb (fun s => fst (Segment.onBorder s p)) (segments b).

(* glm::vec3 direction (0.0f); for (s : segments) direction -= s.plane ().normal () *)
Definition trimDirection (b : t) : vec3 :=
  fold_left (fun d s => vsub d (normal (Segment.plane s))) (segments b) vzero.

(* unsigned int n = 0; for (s : segments) if (s.intersects (ray, t)) n++ *)
Definition countIntersections (b : t) (r : PrimRay) : N :=
  fold_left (fun n s => if fst (Segment.intersects s r) then u32 (n + 1) else n)
            (segments b) 0%N.

Definition trimVertex (b : t) (p : vec3) : bool :=
  if onBorder b p then false
  else
    let r := mkRay p (trimDirection b) in
    let n := countIntersections b r in
    (n mod 2 =? 1)%N.

Definition trimFace (b : t) (p1 p2 p3 : vec3) : bool :=
  if trimVertex b p1 || trimVertex b p2 || trimVertex b p3 then true
  else if onBorder b p1 && onBorder b p2 && onBorder b p3 then
    let p4 := midpoint p1 p2 in
    let p5 := midpoint p1 p3 in
    let p6 := midpoint p2 p3 in
    trimVertex b p4 || trimVertex b p5 || trimVertex b p6
  else false.

Definition deleteEmptyPolylines (b : t) : t :=
  {| segments := map Segment.deleteEmptyPolylines (segments b) |}.

Definition hasVertices (b : t) : bool :=
  existsb Segment.hasVertices (segments b).

(* this->segments[i]; the loop of onlyObtuseAngles stays below size () *)
Definition segmentAt (b : t) (i : nat) : Segment.t :=
  nth i (segments b) (Segment.ofPlane (mkPlane vzero vzero)).

Definition onlyObtuseAngles (b : t) : bool :=
  if 2 <? length (segments b) then
    match
      forReturn (length (segments b) - 1) 0
        (fun i =>
           (* a segment reference bound to a plane: a temporary plane-only
              segment, made by the converting constructor *)
           let s := Segment.ofPlane (Segment.plane (segmentAt b i)) in
           let nextS := Segment.ofPlane (Segment.plane (segmentAt b (i + 1))) in
           if flt (dot (normal (Segment.plane s)) (normal (Segment.plane nextS))) f0
           then Some false
           else None)
    with
    | Some r => r
    | None => true
    end
  else true.

End Defs.
End Border.

(** ** Vocabulary of the statements *)

Section Vocabulary.
Context {SC : Scalar} {PR : Primitives}.

(** The point lies on the given bounding ray of the segment. *)
Definition liesOnEdge (e : option PrimRay) (p : vec3) : Prop :=
  exists r, e = Some r /\ onRay r p = true.

(** The segments of the border that the cast ray intersects. *)
Definition intersected (b : Border.t) (r : PrimRay) : list Segment.t :=
  filter (fun s => fst (Segment.intersects s r)) (Border.segments b).

(** Sum of the plane normals of all segments, and the negation of a vector. *)
Definition sumNormals (b : Border.t) : vec3 :=
  fold_left (fun acc s => vadd acc (normal (Segment.plane s))) (Border.segments b) vzero.

Definition vneg (a : vec3) : vec3 := vsub vzero a.

(** The segment accepts the point: its [onBorder] holds. *)
Definition accepts (p : vec3) (s : Segment.t) : bool := fst (Segment.onBorder s p).

Definition hasOpenPolyline (s : Segment.t) : bool :=
  negb (Segment.isEmpty_polylines s).

(** The index appended to the polyline opened last, the others untouched. *)
Inductive Recorded (index : N) (s s' : Segment.t) : Prop :=
| recorded (pls : Segment.Polylines) (open : Segment.Polyline) :
    Segment.polylines s = pls ++ [open] ->
    s' = Segment.withPolylines s (pls ++ [open ++ [index]]) ->
    Recorded index s s'.

(** What [addVertex] leaves of a segment: the vertex recorded when the
    segment accepts the point, the segment as it was otherwise. *)
Definition recordVertex (index : N) (p : vec3) (s : Segment.t) : Segment.t :=
  if accepts p s
  then Segment.withPolylines s (Segment.pushToBack (Segment.polylines s) index)
  else s.

(** Modelled from the spec: [Util::midpoint] is defined outside this
    translation unit; the design has [trimFace] sample "the three edge
    midpoints", the point halfway between two vertices: half their sum. *)
Definition halfway (half : float) (a c : vec3) : vec3 := vscale half (vadd a c).

(** The identity mapping on [m] indices: 0, 1, ..., m-1. *)
Definition identityMapping (m : nat) : list N := map N.of_nat (seq 0 m).

(** A valid position of a mapping: an entry exists there and it is not the
    invalid index (the two checks [setNewIndices] makes on a lookup). *)
Definition validPosition (newIndices : list N) (i : N) : Prop :=
  exists v, nth_error newIndices (N.to_nat i) = Some v /\ v <> invalidIndex.

Definition storedIndices (s : Segment.t) : list N := concat (Segment.polylines s).

(** The four arities of a segment. *)
Inductive Arity : Type := PlaneOnly | PlaneRay | RayRay | RayPlane.

Definition arity (s : Segment.t) : Arity :=
  match Segment.edge1 s, Segment.edge2 s with
  | None, None => PlaneOnly
  | None, Some _ => PlaneRay
  | Some _, Some _ => RayRay
  | Some _, None => RayPlane
  end.

(** [start, start-1, ...], [count] indices. *)
Fixpoint downFrom (start count : nat) : list nat :=
  match count with
  | O => []
  | S c => start :: downFrom (pred start) c
  end.

(** The two-ray segments between consecutive rays of a list of ray indices. *)
Fixpoint middle (mk : nat -> PrimRay) (js : list nat) : list Segment.t :=
  match js with
  | i :: ((j :: _) as rest) => Segment.ofRayRay (mk i) (mk j) :: middle mk rest
  | _ => []
  end.

(** The chain of segments the design describes for [n] points: one plane
    for two points; otherwise a leading plane with a trailing ray, the
    two-ray segments along the inner points in traversal order, and a
    leading ray with a trailing plane. *)
Definition chain (n : nat) (cam : Camera) (points : list ivec2) (offset : float)
  (reverse : bool) : list Segment.t :=
  let mkP := Border.makePlane cam points offset reverse in
  let mkR := Border.makeRay cam points offset reverse in
  if n =? 2 then
    [Segment.ofPlane (if reverse then mkP 1 0 else mkP 0 1)]
  else if reverse then
    Segment.ofPlaneRay (mkP (n - 1) (n - 2)) (mkR (n - 2))
      :: middle mkR (downFrom (n - 2) (n - 2))
      ++ [Segment.ofRayPlane (mkR 1) (mkP 1 0)]
  else
    Segment.ofPlaneRay (mkP 0 1) (mkR 1)
      :: middle mkR (seq 1 (n - 2))
      ++ [Segment.ofRayPlane (mkR (n - 2)) (mkP (n - 2) (n - 1))].

(** Consecutive plane normals with a negative dot product somewhere
    (a reflexed chain); nowhere (a convex chain). *)
Definition negativeAt (b : Border.t) (i : nat) : Prop :=
  exists s s',
    nth_error (Border.segments b) i = Some s /\
    nth_error (Border.segments b) (S i) = Some s' /\
    flt (dot (normal (Segment.plane s)) (normal (Segment.plane s'))) f0 = true.

Definition reflexed (b : Border.t) : Prop := exists i, negativeAt b i.

Definition convex (b : Border.t) : Prop := forall i, ~ negativeAt b i.

End Vocabulary.

(** ** The earlier variant of the segment

    The second implementation kept beside the current one differs, for a
    segment's geometric tests, in one line: its [isValidProjection] asserts
    that the point lies on the plane, where the current one has the
    assertion commented out.  Its two extra members [u] and [v] are written
    by the plane-only constructor and read by no operation; they are left
    out, so that a segment of either variant is a [Segment.t].  A failed
    assertion is [None]. *)

Module Legacy.
Section Defs.
Context {SC : Scalar} {PR : Primitives}.

Definition isValidProjection (s : Segment.t) (p : vec3) : option bool :=
  if onPlane (Segment.plane s) p then
    let c1 :=
      match Segment.edge1 s with
      | Some e =>
          flt f0 (dot (normal (Segment.plane s)) (cross (vsub p (origin e)) (direction e)))
      | None => true
      end in
    let c2 :=
      match Segment.edge2 s with
      | Some e =>
          flt f0 (dot (normal (Segment.plane s)) (cross (direction e) (vsub p (origin e))))
      | None => true
      end in
    Some (c1 && c2)
  else None.

Definition onBorder (s : Segment.t) (p : vec3) : option (bool * bool) :=
  if Segment.edgeOnRay (Segment.edge1 s) p then Some (true, true)
  else if Segment.edgeOnRay (Segment.edge2 s) p then Some (true, true)
  else if onPlane (Segment.plane s) p then
    match isValidProjection s p with
    | Some v => Some (v, false)
    | None => None
    end
  else Some (false, false).

Definition intersects (s : Segment.t) (r : PrimRay) : option (bool * option float) :=
  match intersectsRayPlane r (Segment.plane s) with
  | Some d =>
      match isValidProjection s (pointAt r d) with
      | Some v => Some (v, Some d)
      | None => None
      end
  | None => Some (false, None)
  end.

End Defs.
End Legacy.

(** ** Vocabulary of the further statements *)

Section MoreVocabulary.
Context {SC : Scalar} {PR : Primitives}.

(** What the geometric tests of a segment read: its plane and its edges. *)
Definition geometry (s : Segment.t) : PrimPlane * option PrimRay * option PrimRay :=
  (Segment.plane s, Segment.edge1 s, Segment.edge2 s).

(** Two borders with the same planes and edges, segment by segment. *)
Definition sameGeometry (b b' : Border.t) : Prop :=
  map geometry (Border.segments b) = map geometry (Border.segments b').

(** Both points are on the border of the segment, and not both on an edge. *)
Definition selectable (v1 v2 : vec3) (s : Segment.t) : bool :=
  fst (Segment.onBorder s v1) && fst (Segment.onBorder s v2)
  && (negb (snd (Segment.onBorder s v1)) || negb (snd (Segment.onBorder s v2))).

(** The entry of a mapping at an index (0 where there is none). *)
Definition renumber (newIndices : list N) (i : N) : N :=
  nth (N.to_nat i) newIndices 0%N.

(** Renumbering by [m1], then by [m2], as one mapping. *)
Definition composeMapping (m1 m2 : list N) : list N := map (renumber m2) m1.

(** A new polyline in the segment: holding the index when the segment
    accepts the point, empty otherwise. *)
Definition startPolyline (index : N) (p : vec3) (s : Segment.t) : Segment.t :=
  if accepts p s
  then Segment.withPolylines s (Segment.polylines s ++ [[index]])
  else Segment.addPolyline s.

(** The arities along a chain of [n] points. *)
Definition chainArities (n : nat) : list Arity :=
  if n =? 2 then [PlaneOnly] else PlaneRay :: repeat RayRay (n - 3) ++ [RayPlane].

(** The segment with every stored index replaced by its entry in the
    mapping. *)
Definition renumbered (newIndices : list N) (s : Segment.t) : Segment.t :=
  Segment.withPolylines s (map (map (renumber newIndices)) (Segment.polylines s)).

(** Why a lookup of index [i] in a mapping stops the program, if it does. *)
Definition lookupFails (newIndices : list N) (i : N) (f : Fatal) : Prop :=
  (f = OutOfRange /\ length newIndices <= N.to_nat i) \/
  (f = AssertValidIndex /\ nth_error newIndices (N.to_nat i) = Some invalidIndex).

(** The indices of the segment after a vertex was offered to it. *)
Definition storedAfter (index : N) (p : vec3) (s : Segment.t) : list N :=
  if accepts p s then storedIndices s ++ [index] else storedIndices s.

(** Two borders that answer every query alike. *)
Definition sameAnswers (b b' : Border.t) : Prop :=
  Border.numSegments b' = Border.numSegments b /\
  (forall p, Border.onBorder b' p = Border.onBorder b p) /\
  (forall p, Border.trimVertex b' p = Border.trimVertex b p) /\
  (forall p1 p2 p3, Border.trimFace b' p1 p2 p3 = Border.trimFace b p1 p2 p3) /\
  Border.onlyObtuseAngles b' = Border.onlyObtuseAngles b.

(** The plane of the one segment of a two-point stroke. *)
Definition solePlane (cam : Camera) (points : list ivec2) (offset : float)
  (reverse : bool) : PrimPlane :=
  if reverse then Border.makePlane cam points offset reverse 1 0
  else Border.makePlane cam points offset reverse 0 1.

(** The ray from the point along the negated normal reaches the plane. *)
Definition reaches (pl : PrimPlane) (p : vec3) : bool :=
  match intersectsRayPlane (mkRay p (vsub vzero (normal pl))) pl with
  | Some _ => true
  | None => false
  end.

End MoreVocabulary.

(** ** An exact instance, to run the border on concrete inputs

    Integer coordinates, exact tests without tolerance.  Rays and planes
    store what they are given; [normalize] divides by the integer square
    root of the squared length, which is exact on the axis-parallel vectors
    of the examples below. *)

Module Exact.

#[export] Instance ZScalar : Scalar := {|
  float := Z;
  f0 := 0%Z;
  fadd := Z.add;
  fsub := Z.sub;
  fmul := Z.mul;
  flt := Z.ltb
|}.

Definition veqb (a b : vec3) : bool :=
  ((vx a =? vx b) && (vy a =? vy b) && (vz a =? vz b))%Z.

Definition znormalize (v : vec3) : vec3 :=
  let len := Z.sqrt (dot v v) in
  if (len =? 0)%Z then v
  else Vec3 (vx v / len)%Z (vy v / len)%Z (vz v / len)%Z.

Record ZRay : Type := { rayOrigin : vec3; rayDirection : vec3 }.
Record ZPlane : Type := { planePoint : vec3; planeNormal : vec3 }.

(* on the line through the origin of the ray, and not behind it *)
Definition zonRay (r : ZRay) (p : vec3) : bool :=
  let v := vsub p (rayOrigin r) in
  veqb (cross (rayDirection r) v) vzero && (0 <=? dot (rayDirection r) v)%Z.

Definition zpointAt (r : ZRay) (d : Z) : vec3 :=
  vadd (rayOrigin r) (vscale d (rayDirection r)).

Definition zonPlane (pl : ZPlane) (p : vec3) : bool :=
  (dot (planeNormal pl) (vsub p (planePoint pl)) =? 0)%Z.

Definition zintersects (r : ZRay) (pl : ZPlane) : option Z :=
  let d := dot (planeNormal pl) (rayDirection r) in
  if (d =? 0)%Z then None
  else
    let num := dot (planeNormal pl) (vsub (planePoint pl) (rayOrigin r)) in
    if (num / d <? 0)%Z then None else Some (num / d)%Z.

Definition zmidpoint (a b : vec3) : vec3 :=
  Vec3 ((vx a + vx b) / 2)%Z ((vy a + vy b) / 2)%Z ((vz a + vz b) / 2)%Z.

#[export] Instance ZPrimitives : Primitives := {|
  normalize := znormalize;
  PrimRay := ZRay;
  mkRay := Build_ZRay;
  origin := rayOrigin;
  direction := rayDirection;
  onRay := zonRay;
  pointAt := zpointAt;
  PrimPlane := ZPlane;
  mkPlane := Build_ZPlane;
  point := planePoint;
  normal := planeNormal;
  onPlane := zonPlane;
  intersectsRayPlane := zintersects;
  midpoint := zmidpoint;
  invalidIndex := (2 ^ 32 - 1)%N
|}.

(** A pinhole camera at the world origin looking down the negative z axis:
    the ray through screen point [(x, y)] has direction [(x, y, -1)]. *)
Definition pinhole : Camera := {|
  ray := fun xy => mkRay vzero (Vec3 (fst xy) (snd xy) (-1)%Z);
  position := vzero
|}.

(* a single stroke, two points *)
Definition stroke2 : list ivec2 := [(0, 0); (10, 0)]%Z.
(* an open stroke of four points *)
Definition stroke4 : list ivec2 := [(0, 0); (10, 0); (10, 10); (0, 10)]%Z.
(* a stroke that goes out and comes back: its two planes face each other *)
Definition strokeBack : list ivec2 := [(0, 0); (10, 0); (0, 0)]%Z.

(* a stroke of four points that turns back on itself after the first leg *)
Definition strokeZigzag : list ivec2 := [(0, 0); (10, 0); (0, 0); (0, 10)]%Z.

Definition border (points : list ivec2) (reverse : bool) : Border.t :=
  match Border.make pinhole points 0%Z reverse with
  | Ok b => b
  | Abort _ => {| Border.segments := [] |}
  end.

(* the border of the four-point stroke, one polyline opened *)
Definition opened : Border.t := Border.addPolyline (border stroke4 false).

(* on the ray shared by the first two segments of the four-point stroke *)
Definition onSharedEdge : vec3 := Vec3 20%Z 0%Z (-2)%Z.
(* behind the middle segment of the four-point stroke *)
Definition inside : vec3 := Vec3 5%Z 5%Z (-1)%Z.
(* on the plane of its first segment, off every edge *)
Definition onFirstPlane : vec3 := Vec3 5%Z 0%Z (-1)%Z.
(* beyond the first bounding ray *)
Definition outside : vec3 := Vec3 50%Z 0%Z (-1)%Z.

(* a border of one plane-only segment that holds the given polylines *)
Definition holding (pls : Segment.Polylines) : Border.t :=
  {| Border.segments :=
       [Segment.withPolylines (Segment.ofPlane (mkPlane vzero (Vec3 0%Z 1%Z 0%Z))) pls] |}.

End Exact.

(** * Properties *)

(** ** Segments *)

Section SegmentFacts.
Context {SC : Scalar} {PR : Primitives}.

Lemma edgeOnRay_true (e : option PrimRay) (p : vec3) :
  Segment.edgeOnRay e p = true <-> liesOnEdge e p.
Proof.
  unfold liesOnEdge. destruct e as [r|]; simpl; split.
  - intros H. exists r. split; [reflexivity | exact H].
  - intros [r' [E H]]. injection E as ->. exact H.
  - discriminate.
  - intros [r' [E _]]. discriminate E.
Qed.

Lemma edgeOnRay_false (e : option PrimRay) (p : vec3) :
  Segment.edgeOnRay e p = false <-> ~ liesOnEdge e p.
Proof.
  destruct (Segment.edgeOnRay e p) eqn:E; split.
  - discriminate.
  - intros H. exfalso. apply H. apply edgeOnRay_true. exact E.
  - intros _ H. apply edgeOnRay_true in H. congruence.
  - reflexivity.
Qed.

(** [isValidProjection]: one strict triple-product inequality per present
    edge, none for an absent edge, all of them conjoined. *)
Lemma isValidProjection_iff (s : Segment.t) (p : vec3) :
  Segment.isValidProjection s p = true <->
  (forall e, Segment.edge1 s = Some e ->
     flt f0 (dot (normal (Segment.plane s))
                 (cross (vsub p (origin e)) (direction e))) = true) /\
  (forall e, Segment.edge2 s = Some e ->
     flt f0 (dot (normal (Segment.plane s))
                 (cross (direction e) (vsub p (origin e)))) = true).
Proof.
  unfold Segment.isValidProjection. rewrite andb_true_iff.
  destruct (Segment.edge1 s) as [e1|], (Segment.edge2 s) as [e2|]; split.
  all: try (intros [H1 H2]; split; intros e E;
            try discriminate E; try (injection E as <-); assumption).
  all: intros [H1 H2]; split;
       try reflexivity; try (apply H1; reflexivity); try (apply H2; reflexivity).
Qed.

(** C4.  [onBorder] of a segment answers (true, onEdge = true) exactly
    when the point lies on edge1 or on edge2, whatever the plane test says;
    it answers (true, onEdge = false) exactly when the point lies on
    neither edge, lies on the plane and is a valid projection; in every
    other case it answers (false, onEdge = false).  A valid projection is
    one that satisfies the strict triple-product inequality of each edge
    that is present. *)
Theorem segment_onBorder_cases (s : Segment.t) (p : vec3) :
  (Segment.onBorder s p = (true, true) <->
     liesOnEdge (Segment.edge1 s) p \/ liesOnEdge (Segment.edge2 s) p) /\
  (Segment.onBorder s p = (true, false) <->
     ~ liesOnEdge (Segment.edge1 s) p /\ ~ liesOnEdge (Segment.edge2 s) p /\
     onPlane (Segment.plane s) p = true /\ Segment.isValidProjection s p = true) /\
  (Segment.onBorder s p = (false, false) <->
     ~ liesOnEdge (Segment.edge1 s) p /\ ~ liesOnEdge (Segment.edge2 s) p /\
     (onPlane (Segment.plane s) p = false \/ Segment.isValidProjection s p = false)) /\
  Segment.onBorder s p <> (false, true) /\
  (Segment.isValidProjection s p = true <->
     (forall e, Segment.edge1 s = Some e ->
        flt f0 (dot (normal (Segment.plane s))
                    (cross (vsub p (origin e)) (direction e))) = true) /\
     (forall e, Segment.edge2 s = Some e ->
        flt f0 (dot (normal (Segment.plane s))
                    (cross (direction e) (vsub p (origin e)))) = true)).
Proof.
  rewrite <- !edgeOnRay_false, <- !edgeOnRay_true.
  unfold Segment.onBorder.
  destruct (Segment.edgeOnRay (Segment.edge1 s) p) eqn:E1;
    destruct (Segment.edgeOnRay (Segment.edge2 s) p) eqn:E2;
    destruct (onPlane (Segment.plane s) p) eqn:EP;
    destruct (Segment.isValidProjection s p) eqn:EV.
  all: repeat split; try apply isValidProjection_iff; try assumption.
  all: try rewrite <- EV; try (apply isValidProjection_iff; assumption).
  all: try congruence; try tauto; try (intros; intuition congruence).
Qed.

(** What the two assertions of a segment's [addVertex] decide. *)
Lemma segment_addVertex_cases (s : Segment.t) (index : N) (p : vec3) :
  Segment.addVertex s index p =
    if fst (Segment.onBorder s p) then
      match Segment.polylines s with
      | [] => Abort AssertPolylineOpen
      | _ => Ok (Segment.withPolylines s (Segment.pushToBack (Segment.polylines s) index))
      end
    else Abort AssertOnBorder.
Proof.
  unfold Segment.addVertex, Segment.isEmpty_polylines, assert.
  destruct (fst (Segment.onBorder s p)); simpl; [|reflexivity].
  destruct (Segment.polylines s); reflexivity.
Qed.

Lemma pushToBack_last (pls : Segment.Polylines) (open : Segment.Polyline) (index : N) :
  Segment.pushToBack (pls ++ [open]) index = pls ++ [open ++ [index]].
Proof.
  induction pls as [|q pls IH]; simpl; [reflexivity|].
  rewrite IH. destruct (pls ++ [open]) eqn:E; [|reflexivity].
  destruct pls; discriminate E.
Qed.

End SegmentFacts.

(** ** Trimming *)

(** The running subtraction of [trimVertex] is the negated sum of the
    normals in any arithmetic in which [0 - 0 = 0] and
    [(0 - a) - n = 0 - (a + n)]; both hold for IEEE round-to-nearest. *)
Section Direction.
Context {SC : Scalar} {PR : Primitives}.
Hypothesis sub_zero : fsub f0 f0 = f0.
Hypothesis sub_sub : forall a n : float, fsub (fsub f0 a) n = fsub f0 (fadd a n).

Lemma trimDirection_from (segs : list Segment.t) (acc : vec3) :
  fold_left (fun d s => vsub d (normal (Segment.plane s))) segs (vneg acc)
  = vneg (fold_left (fun a s => vadd a (normal (Segment.plane s))) segs acc).
Proof.
  revert acc. induction segs as [|s segs IH]; intros acc; simpl; [reflexivity|].
  rewrite <- IH. f_equal.
  unfold vneg, vsub, vadd, vzero; simpl. rewrite !sub_sub. reflexivity.
Qed.

Lemma trimDirection_negated_sum (b : Border.t) :
  Border.trimDirection b = vneg (sumNormals b).
Proof.
  unfold Border.trimDirection, sumNormals. rewrite <- trimDirection_from.
  f_equal. unfold vneg, vsub, vzero; simpl. rewrite sub_zero. reflexivity.
Qed.

End Direction.

Section TrimFacts.
Context {SC : Scalar} {PR : Primitives}.

Lemma border_onBorder_iff (b : Border.t) (p : vec3) :
  Border.onBorder b p = true <->
  exists s, In s (Border.segments b) /\ fst (Segment.onBorder s p) = true.
Proof. unfold Border.onBorder. apply existsb_exists. Qed.

(** C2.  A point on the border is never trimmed: when some segment's
    [onBorder] holds for [p], [trimVertex p] is false, whatever the ray
    cast from [p] would have counted. *)
Theorem trimVertex_onBorder (b : Border.t) (p : vec3) :
  Border.onBorder b p = true -> Border.trimVertex b p = false.
Proof.
  intros H. unfold Border.trimVertex. rewrite H. reflexivity.
Qed.

Lemma odd_u32 (x : N) : N.odd (u32 x) = N.odd x.
Proof.
  unfold u32.
  rewrite (N.div_mod x (2 ^ 32)) at 2 by discriminate.
  rewrite N.add_comm.
  replace (2 ^ 32 * (x / 2 ^ 32))%N with (2 * (2 ^ 31 * (x / 2 ^ 32)))%N.
  - symmetry. apply N.odd_add_mul_2.
  - rewrite N.mul_assoc. reflexivity.
Qed.

Lemma mod2_odd (n : N) : (n mod 2 =? 1)%N = N.odd n.
Proof.
  rewrite <- N.bit0_mod, N.bit0_odd. destruct (N.odd n); reflexivity.
Qed.

(** The 32-bit counter of [trimVertex] has the parity of the number of
    segments counted, even if it wrapped. *)
Lemma count_parity (segs : list Segment.t) (r : PrimRay) (n : N) :
  N.odd (fold_left (fun n s => if fst (Segment.intersects s r) then u32 (n + 1) else n)
                   segs n)
  = xorb (N.odd n)
         (Nat.odd (length (filter (fun s => fst (Segment.intersects s r)) segs))).
Proof.
  revert n. induction segs as [|s segs IH]; intros n; simpl.
  - rewrite xorb_false_r. reflexivity.
  - destruct (fst (Segment.intersects s r)).
    + rewrite IH, odd_u32. cbn [length].
      rewrite Nat.odd_succ, <- Nat.negb_odd, N.add_1_r, N.odd_succ, <- N.negb_odd.
      destruct (N.odd n), (Nat.odd _); reflexivity.
    + apply IH.
Qed.

(** C1.  Off the border, [trimVertex p] is true exactly when the ray cast
    from [p] intersects an odd number of segments.  The ray is
    [PrimRay (p, direction)], where [direction] is the zero vector from
    which every segment's plane normal has been subtracted in turn; that is
    the negation of the sum of the normals as soon as [0 - 0 = 0] and
    [(0 - a) - n = 0 - (a + n)], as in IEEE arithmetic. *)
Theorem trimVertex_parity (b : Border.t) (p : vec3) :
  Border.onBorder b p = false ->
  Border.trimVertex b p
  = Nat.odd (length (intersected b (mkRay p (Border.trimDirection b)))) /\
  (fsub f0 f0 = f0 ->
   (forall a n : float, fsub (fsub f0 a) n = fsub f0 (fadd a n)) ->
   Border.trimDirection b = vneg (sumNormals b)).
Proof.
  intros H. split.
  - unfold Border.trimVertex, Border.countIntersections, intersected.
    rewrite H, mod2_odd, count_parity. reflexivity.
  - intros H0 Hs. apply trimDirection_negated_sum; assumption.
Qed.

(** The halfway point does not depend on the order of the two points as
    soon as addition commutes, as IEEE addition does. *)
Lemma halfway_comm (half : float) (a c : vec3) :
  (forall x y : float, fadd x y = fadd y x) -> halfway half a c = halfway half c a.
Proof.
  intros Hcomm. unfold halfway, vadd.
  rewrite (Hcomm (vx a)), (Hcomm (vy a)), (Hcomm (vz a)). reflexivity.
Qed.

(** C8.  [trimFace] does not depend on the order of its three vertices,
    given that the midpoint of two points ([Util::midpoint]) does not depend
    on their order. *)
Theorem trimFace_symmetric (b : Border.t) (p1 p2 p3 : vec3) :
  (forall a c : vec3, midpoint a c = midpoint c a) ->
  Border.trimFace b p1 p2 p3 = Border.trimFace b p1 p3 p2 /\
  Border.trimFace b p1 p2 p3 = Border.trimFace b p2 p1 p3 /\
  Border.trimFace b p1 p2 p3 = Border.trimFace b p2 p3 p1 /\
  Border.trimFace b p1 p2 p3 = Border.trimFace b p3 p1 p2 /\
  Border.trimFace b p1 p2 p3 = Border.trimFace b p3 p2 p1.
Proof.
  intros Hmid. unfold Border.trimFace.
  rewrite (Hmid p2 p1), (Hmid p3 p1), (Hmid p3 p2).
  destruct (Border.trimVertex b p1), (Border.trimVertex b p2), (Border.trimVertex b p3);
    simpl; try (repeat split; reflexivity).
  destruct (Border.onBorder b p1), (Border.onBorder b p2), (Border.onBorder b p3);
    simpl; try (repeat split; reflexivity).
  destruct (Border.trimVertex b (midpoint p1 p2)),
           (Border.trimVertex b (midpoint p1 p3)),
           (Border.trimVertex b (midpoint p2 p3));
    repeat split; reflexivity.
Qed.

End TrimFacts.

(** ** Recording border vertices *)

Section PolylineFacts.
Context {SC : Scalar} {PR : Primitives}.

Lemma polylines_snoc (pls : Segment.Polylines) :
  pls <> [] -> exists init open, pls = init ++ [open].
Proof.
  intros H. destruct (exists_last H) as [init [open E]]. exists init, open. exact E.
Qed.

Lemma recordVertex_recorded (index : N) (p : vec3) (s : Segment.t) :
  accepts p s = true -> Segment.polylines s <> [] ->
  Recorded index s (recordVertex index p s).
Proof.
  intros Ha Hne. destruct (polylines_snoc Hne) as [init [open E]].
  apply recorded with (pls := init) (open := open); [exact E|].
  unfold recordVertex. rewrite Ha, E, pushToBack_last. reflexivity.
Qed.

Lemma segment_addVertex_accepted (index : N) (p : vec3) (s : Segment.t) :
  accepts p s = true ->
  Segment.addVertex s index p =
    if hasOpenPolyline s then Ok (recordVertex index p s) else Abort AssertPolylineOpen.
Proof.
  intros Ha. rewrite segment_addVertex_cases.
  unfold recordVertex, hasOpenPolyline, Segment.isEmpty_polylines.
  unfold accepts in Ha. unfold accepts. rewrite Ha.
  destruct (Segment.polylines s); reflexivity.
Qed.

(** The loop of the border's [addVertex] stops at the first accepting
    segment without an open polyline; otherwise every accepting segment
    records the vertex and [wasAdded] tells whether there was one. *)
Lemma addVertexLoop_cases (segs : list Segment.t) (index : N) (p : vec3) (w : bool) :
  Border.addVertexLoop segs index p w =
    if forallb (fun s => implb (accepts p s) (hasOpenPolyline s)) segs
    then Ok (map (recordVertex index p) segs, w || existsb (accepts p) segs)
    else Abort AssertPolylineOpen.
Proof.
  revert w. induction segs as [|s segs IH]; intros w; simpl.
  - rewrite orb_false_r. reflexivity.
  - fold (accepts p s). destruct (accepts p s) eqn:Ha; simpl.
    + rewrite (segment_addVertex_accepted index p s Ha).
      destruct (hasOpenPolyline s); simpl; [|reflexivity].
      rewrite IH. destruct (forallb _ segs); simpl; [|reflexivity].
      rewrite orb_true_r. reflexivity.
    + assert (Hr : recordVertex index p s = s)
        by (unfold recordVertex; rewrite Ha; reflexivity).
      rewrite IH, Hr. destruct (forallb _ segs); reflexivity.
Qed.

Lemma border_addVertex_eq (b : Border.t) (index : N) (p : vec3) :
  Border.addVertex b index p =
    if forallb (fun s => implb (accepts p s) (hasOpenPolyline s)) (Border.segments b)
    then if Border.onBorder b p
         then Ok {| Border.segments := map (recordVertex index p) (Border.segments b) |}
         else Abort AssertWasAdded
    else Abort AssertPolylineOpen.
Proof.
  unfold Border.addVertex. rewrite addVertexLoop_cases.
  destruct (forallb _ (Border.segments b)); simpl; [|reflexivity].
  unfold Border.onBorder, accepts.
  destruct (existsb _ (Border.segments b)); reflexivity.
Qed.

(** C7.  The border's [addVertex] appends the index to the polyline opened
    last of every segment that accepts the point (all of them, when several
    do) and leaves the other segments alone; it stops on a failed assertion
    when no segment accepts the point.  A segment's [addVertex] stops on a
    failed assertion when its [onBorder] fails for the point or when it has
    no polyline, and this stops the border's [addVertex] too. *)
Theorem border_addVertex_cases (b : Border.t) (index : N) (p : vec3) :
  ((forall s, In s (Border.segments b) -> accepts p s = false) ->
     Border.addVertex b index p = Abort AssertWasAdded) /\
  ((exists s, In s (Border.segments b) /\ accepts p s = true) ->
   (forall s, In s (Border.segments b) -> accepts p s = true ->
      Segment.polylines s <> []) ->
     Border.addVertex b index p
     = Ok {| Border.segments := map (recordVertex index p) (Border.segments b) |} /\
     (forall s, In s (Border.segments b) ->
        (accepts p s = true -> Recorded index s (recordVertex index p s)) /\
        (accepts p s = false -> recordVertex index p s = s))) /\
  ((exists s, In s (Border.segments b) /\ accepts p s = true /\
              Segment.polylines s = []) ->
     Border.addVertex b index p = Abort AssertPolylineOpen) /\
  (forall s, accepts p s = false ->
     Segment.addVertex s index p = Abort AssertOnBorder) /\
  (forall s, accepts p s = true -> Segment.polylines s = [] ->
     Segment.addVertex s index p = Abort AssertPolylineOpen) /\
  (forall s, accepts p s = true -> Segment.polylines s <> [] ->
     exists s', Segment.addVertex s index p = Ok s' /\ Recorded index s s').
Proof.
  rewrite border_addVertex_eq. repeat split.
  - intros Hnone.
    assert (Hall : forallb (fun s => implb (accepts p s) (hasOpenPolyline s))
                           (Border.segments b) = true).
    { apply forallb_forall. intros s Hs. rewrite (Hnone s Hs). reflexivity. }
    rewrite Hall.
    destruct (Border.onBorder b p) eqn:Hb; [|reflexivity].
    apply border_onBorder_iff in Hb. destruct Hb as [s [Hs Ha]].
    unfold accepts in Hnone. rewrite (Hnone s Hs) in Ha. discriminate Ha.
  - assert (Hall : forallb (fun s => implb (accepts p s) (hasOpenPolyline s))
                           (Border.segments b) = true).
    { apply forallb_forall. intros s Hs. destruct (accepts p s) eqn:Ha; [|reflexivity].
      simpl. unfold hasOpenPolyline, Segment.isEmpty_polylines.
      specialize (H0 s Hs Ha). destruct (Segment.polylines s); [contradiction|reflexivity]. }
    rewrite Hall.
    destruct H as [s [Hs Ha]].
    assert (Hb : Border.onBorder b p = true).
    { apply border_onBorder_iff. exists s. split; assumption. }
    rewrite Hb. reflexivity.
  - intros Ha. apply recordVertex_recorded; [exact Ha | apply H0; assumption].
  - intros Ha. unfold recordVertex. rewrite Ha. reflexivity.
  - intros [s [Hs [Ha He]]].
    assert (Hall : forallb (fun s => implb (accepts p s) (hasOpenPolyline s))
                           (Border.segments b) = false).
    { destruct (forallb _ (Border.segments b)) eqn:E; [|reflexivity].
      rewrite forallb_forall in E. specialize (E s Hs).
      unfold hasOpenPolyline, Segment.isEmpty_polylines in E.
      rewrite Ha, He in E. discriminate E. }
    rewrite Hall. reflexivity.
  - intros s Ha. rewrite segment_addVertex_cases. unfold accepts in Ha.
    rewrite Ha. reflexivity.
  - intros s Ha He. rewrite segment_addVertex_cases. unfold accepts in Ha.
    rewrite Ha, He. reflexivity.
  - intros s Ha Hne. exists (recordVertex index p s). split.
    + rewrite (segment_addVertex_accepted index p s Ha).
      unfold hasOpenPolyline, Segment.isEmpty_polylines.
      destruct (Segment.polylines s); [contradiction|reflexivity].
    + apply recordVertex_recorded; assumption.
Qed.

End PolylineFacts.

(** ** Renumbering *)

Section IndexFacts.
Context {SC : Scalar} {PR : Primitives}.

Lemma forEach_fixed {A : Type} (body : A -> Result A) (l : list A) :
  (forall a, In a l -> body a = Ok a) -> forEach body l = Ok l.
Proof.
  induction l as [|a l IH]; intros H; simpl; [reflexivity|].
  rewrite (H a (or_introl eq_refl)). simpl.
  rewrite IH; [reflexivity|]. intros a' Ha'. apply H. right. exact Ha'.
Qed.

Lemma nth_error_identityMapping (m k : nat) :
  nth_error (identityMapping m) k = if k <? m then Some (N.of_nat k) else None.
Proof.
  unfold identityMapping. rewrite nth_error_map, nth_error_seq.
  destruct (k <? m); reflexivity.
Qed.

Lemma setNewIndex_identity (m : nat) (i : N) :
  validPosition (identityMapping m) i ->
  Segment.setNewIndex (identityMapping m) i = Ok i.
Proof.
  intros [v [Hv Hne]]. unfold Segment.setNewIndex, Segment.at_.
  rewrite Hv. simpl.
  rewrite nth_error_identityMapping in Hv.
  destruct (N.to_nat i <? m); [|discriminate Hv].
  injection Hv as Hv. rewrite N2Nat.id in Hv. subst v.
  unfold assert. destruct (N.eqb_spec i invalidIndex) as [E|_]; [contradiction|].
  reflexivity.
Qed.

Lemma segment_setNewIndices_identity (m : nat) (s : Segment.t) :
  (forall i, In i (storedIndices s) -> validPosition (identityMapping m) i) ->
  Segment.setNewIndices s (identityMapping m) = Ok s.
Proof.
  intros H. unfold Segment.setNewIndices.
  rewrite forEach_fixed.
  - simpl. destruct s; reflexivity.
  - intros pl Hpl. apply forEach_fixed. intros i Hi.
    apply setNewIndex_identity, H. unfold storedIndices.
    apply in_concat. exists pl. split; assumption.
Qed.

Lemma identityMapping_valid (m : nat) (i : N) :
  (N.of_nat m <= invalidIndex)%N -> N.to_nat i < m ->
  validPosition (identityMapping m) i.
Proof.
  intros Hm Hi. exists i. split.
  - rewrite nth_error_identityMapping.
    apply Nat.ltb_lt in Hi. rewrite Hi, N2Nat.id. reflexivity.
  - lia.
Qed.

(** C9.  [setNewIndices] with the identity mapping [0, 1, ..., m-1] leaves
    a segment, and a border, as they are, each stored index included, when
    every stored index is a valid position of the mapping: the mapping has
    an entry there and the entry is not the invalid index.  In an identity
    mapping of at most [Util::invalidIndex ()] entries every position is
    valid. *)
Theorem setNewIndices_identity (m : nat) :
  (forall s : Segment.t,
     (forall i, In i (storedIndices s) -> validPosition (identityMapping m) i) ->
     Segment.setNewIndices s (identityMapping m) = Ok s) /\
  (forall b : Border.t,
     (forall s i, In s (Border.segments b) -> In i (storedIndices s) ->
        validPosition (identityMapping m) i) ->
     Border.setNewIndices b (identityMapping m) = Ok b) /\
  ((N.of_nat m <= invalidIndex)%N ->
   forall i, N.to_nat i < m -> validPosition (identityMapping m) i).
Proof.
  split; [|split].
  - intros s H. apply segment_setNewIndices_identity, H.
  - intros b H. unfold Border.setNewIndices.
    rewrite forEach_fixed.
    + simpl. destruct b; reflexivity.
    + intros s Hs. apply segment_setNewIndices_identity.
      intros i Hi. apply (H s i Hs Hi).
  - intros Hm i Hi. apply identityMapping_valid; assumption.
Qed.

End IndexFacts.

(** ** Construction *)

Section ConstructionFacts.
Context {SC : Scalar} {PR : Primitives}.

Lemma numPoints_fits (points : list ivec2) :
  (N.of_nat (length points) < 2 ^ 32)%N -> Border.numPoints points = length points.
Proof.
  intros H. unfold Border.numPoints, u32.
  rewrite N.mod_small by exact H. apply Nat2N.id.
Qed.

(** Every index the constructor reads is a position of [points]. *)
Lemma numPoints_le (points : list ivec2) :
  Border.numPoints points <= length points.
Proof.
  unfold Border.numPoints, u32.
  pose proof (N.Div0.mod_le (N.of_nat (length points)) (2 ^ 32)) as H.
  lia.
Qed.

Lemma forUp_middle (mk : nat -> PrimRay) (c start : nat) (acc : list Segment.t) :
  forUp c start
        (fun i segs => Border.emplace_back segs (Segment.ofRayRay (mk i) (mk (i + 1))))
        acc
  = acc ++ middle mk (seq start (S c)).
Proof.
  revert start acc. induction c as [|c IH]; intros start acc.
  - simpl. rewrite app_nil_r. reflexivity.
  - cbn [forUp]. rewrite IH. unfold Border.emplace_back.
    rewrite <- app_assoc, Nat.add_1_r. reflexivity.
Qed.

Lemma forDown_middle (mk : nat -> PrimRay) (c start : nat) (acc : list Segment.t) :
  forDown c start
          (fun i segs => Border.emplace_back segs (Segment.ofRayRay (mk i) (mk (i - 1))))
          acc
  = acc ++ middle mk (downFrom start (S c)).
Proof.
  revert start acc. induction c as [|c IH]; intros start acc.
  - simpl. rewrite app_nil_r. reflexivity.
  - cbn [forDown]. rewrite IH. unfold Border.emplace_back.
    rewrite <- app_assoc, Nat.sub_1_r. reflexivity.
Qed.

(** The constructor builds the chain of the design for its [n], or stops
    on [assert (n >= 2)]. *)
Lemma make_eq (cam : Camera) (points : list ivec2) (offset : float) (reverse : bool) :
  Border.make cam points offset reverse =
    if 2 <=? Border.numPoints points
    then Ok {| Border.segments :=
                 chain (Border.numPoints points) cam points offset reverse |}
    else Abort AssertNumPoints.
Proof.
  unfold Border.make, chain, assert, bind.
  destruct (2 <=? Border.numPoints points) eqn:Hn; [|reflexivity].
  apply Nat.leb_le in Hn.
  destruct (Border.numPoints points =? 2) eqn:H2; destruct reverse;
    try reflexivity; apply Nat.eqb_neq in H2; cbv beta iota zeta delta [negb].
  - rewrite forDown_middle.
    replace (S (Border.numPoints points - 2 - 1)) with (Border.numPoints points - 2) by lia.
    reflexivity.
  - rewrite forUp_middle.
    replace (S (Border.numPoints points - 2 - 1)) with (Border.numPoints points - 2) by lia.
    reflexivity.
Qed.

Lemma middle_cons (mk : nat -> PrimRay) (i j : nat) (rest : list nat) :
  middle mk (i :: j :: rest) = Segment.ofRayRay (mk i) (mk j) :: middle mk (j :: rest).
Proof. reflexivity. Qed.

Lemma middle_arity (mk : nat -> PrimRay) (js : list nat) :
  map arity (middle mk js) = repeat RayRay (length js - 1).
Proof.
  induction js as [|j0 js IH]; [reflexivity|].
  destruct js as [|j1 js]; [reflexivity|].
  rewrite middle_cons. cbn [map]. rewrite IH. cbn [length]. rewrite !Nat.sub_succ, !Nat.sub_0_r.
  reflexivity.
Qed.

Lemma middle_length (mk : nat -> PrimRay) (js : list nat) :
  length (middle mk js) = length js - 1.
Proof.
  rewrite <- (length_map arity), middle_arity. apply repeat_length.
Qed.

Lemma downFrom_length (start count : nat) : length (downFrom start count) = count.
Proof.
  revert start. induction count as [|c IH]; intros start; simpl; [reflexivity|].
  rewrite IH. reflexivity.
Qed.

Lemma nth_error_downFrom (start count i : nat) :
  i < count -> nth_error (downFrom start count) i = Some (start - i).
Proof.
  revert start i. induction count as [|c IH]; intros start i Hi; [lia|].
  destruct i as [|i]; simpl.
  - rewrite Nat.sub_0_r. reflexivity.
  - rewrite IH by lia. f_equal. lia.
Qed.

Lemma last_cons (a d : nat) (l : list nat) : last (a :: l) d = last l a.
Proof.
  revert a d. induction l as [|b l IH]; intros a d; [reflexivity|].
  change (last (a :: b :: l) d) with (last (b :: l) d).
  rewrite (IH b d), (IH b a). reflexivity.
Qed.

Lemma last_seq (start count : nat) : last (seq start (S count)) 0 = start + count.
Proof.
  rewrite seq_S. apply last_last.
Qed.

Lemma last_downFrom (start count d : nat) :
  last (downFrom start (S count)) d = start - count.
Proof.
  revert start d. induction count as [|c IH]; intros start d.
  - simpl. rewrite Nat.sub_0_r. reflexivity.
  - change (downFrom start (S (S c))) with (start :: downFrom (pred start) (S c)).
    rewrite last_cons, IH. lia.
Qed.

(** In a chain, the ray at position [i] of the list of ray indices is the
    trailing edge of segment [i] and the leading edge of segment [i+1]. *)
Lemma chain_joint (mk : nat -> PrimRay) (js : list nat) :
  forall (j0 : nat) (first final : Segment.t) (i j : nat),
    Segment.edge2 first = Some (mk j0) ->
    Segment.edge1 final = Some (mk (last js j0)) ->
    nth_error (j0 :: js) i = Some j ->
    exists s s',
      nth_error (first :: middle mk (j0 :: js) ++ [final]) i = Some s /\
      nth_error (first :: middle mk (j0 :: js) ++ [final]) (S i) = Some s' /\
      Segment.edge2 s = Some (mk j) /\ Segment.edge1 s' = Some (mk j).
Proof.
  induction js as [|j1 js IH]; intros j0 first final i j Hf Hl Hi.
  - destruct i as [|i]; [|destruct i; discriminate Hi].
    injection Hi as <-. exists first, final. repeat split; assumption.
  - destruct i as [|i].
    + injection Hi as <-.
      exists first, (Segment.ofRayRay (mk j0) (mk j1)). repeat split. exact Hf.
    + rewrite middle_cons.
      destruct (IH j1 (Segment.ofRayRay (mk j0) (mk j1)) final i j) as [s [s' H]].
      * reflexivity.
      * rewrite <- last_cons with (d := j0). exact Hl.
      * exact Hi.
      * exists s, s'. exact H.
Qed.

Lemma chain_fresh (n : nat) (cam : Camera) (points : list ivec2) (offset : float)
  (reverse : bool) (s : Segment.t) :
  In s (chain n cam points offset reverse) -> Segment.polylines s = [].
Proof.
  assert (Hmid : forall mk js, In s (middle mk js) -> Segment.polylines s = []).
  { intros mk js. induction js as [|j0 js IH]; [intros []|].
    destruct js as [|j1 js]; [intros []|].
    rewrite middle_cons. intros [<- | H]; [reflexivity | apply IH, H]. }
  unfold chain. destruct (n =? 2).
  - intros [<- | []]. reflexivity.
  - destruct reverse; intros [<- | H]; try reflexivity;
      apply in_app_or in H; destruct H as [H | [<- | []]];
      try reflexivity; apply (Hmid _ _ H).
Qed.

(** C3.  With [n] the number of screen points as the constructor reads it
    ([unsigned int n = points.size ()], the length of the sequence whenever
    that fits 32 bits) and [n >= 2], construction succeeds and yields the
    chain of the design, in traversal order: for [n = 2] exactly one
    segment, plane only; for [n > 2] exactly [n - 1] segments, a plane with
    a trailing ray, then [n - 3] two-ray segments, then a leading ray with
    a plane. *)
Theorem make_chain (cam : Camera) (points : list ivec2) (offset : float) (reverse : bool) :
  2 <= Border.numPoints points ->
  ((N.of_nat (length points) < 2 ^ 32)%N -> Border.numPoints points = length points) /\
  exists b,
    Border.make cam points offset reverse = Ok b /\
    Border.segments b = chain (Border.numPoints points) cam points offset reverse /\
    (Border.numPoints points = 2 ->
       length (Border.segments b) = 1 /\
       map arity (Border.segments b) = [PlaneOnly]) /\
    (2 < Border.numPoints points ->
       length (Border.segments b) = Border.numPoints points - 1 /\
       map arity (Border.segments b)
       = PlaneRay :: repeat RayRay (Border.numPoints points - 3) ++ [RayPlane]).
Proof.
  intros Hn. split; [apply numPoints_fits|].
  exists {| Border.segments := chain (Border.numPoints points) cam points offset reverse |}.
  split.
  { rewrite make_eq. apply Nat.leb_le in Hn. rewrite Hn. reflexivity. }
  split; [reflexivity|].
  cbn [Border.segments]. unfold chain. split.
  - intros H2. rewrite H2. destruct reverse; split; reflexivity.
  - intros H2. assert (E : (Border.numPoints points =? 2) = false) by (apply Nat.eqb_neq; lia).
    rewrite E. destruct reverse.
    + split.
      * cbn [length]. rewrite length_app, middle_length, downFrom_length. simpl. lia.
      * cbn [map]. rewrite map_app, middle_arity, downFrom_length.
        replace (Border.numPoints points - 2 - 1) with (Border.numPoints points - 3) by lia.
        reflexivity.
    + split.
      * cbn [length]. rewrite length_app, middle_length, length_seq. simpl. lia.
      * cbn [map]. rewrite map_app, middle_arity, length_seq.
        replace (Border.numPoints points - 2 - 1) with (Border.numPoints points - 3) by lia.
        reflexivity.
Qed.

(** C5.  In a border constructed from [n > 2] points, for every [i < n - 2]
    the trailing edge of segment [i] and the leading edge of segment [i+1]
    are the same ray, origin and direction alike: both are the one ray
    [makeRay j] of the inner point [j] between them, built from the same
    camera ray and the same offset displacement. *)
Theorem make_shared_edges (cam : Camera) (points : list ivec2) (offset : float)
  (reverse : bool) (b : Border.t) (i : nat) :
  2 < Border.numPoints points ->
  Border.make cam points offset reverse = Ok b ->
  i < Border.numPoints points - 2 ->
  exists s s' r,
    nth_error (Border.segments b) i = Some s /\
    nth_error (Border.segments b) (S i) = Some s' /\
    Segment.edge2 s = Some r /\ Segment.edge1 s' = Some r /\
    r = Border.makeRay cam points offset reverse
          (if reverse then Border.numPoints points - 2 - i else i + 1).
Proof.
  intros Hn Hmake Hi. rewrite make_eq in Hmake.
  assert (E2 : (2 <=? Border.numPoints points) = true) by (apply Nat.leb_le; lia).
  rewrite E2 in Hmake. injection Hmake as <-. cbn [Border.segments].
  unfold chain.
  assert (E : (Border.numPoints points =? 2) = false) by (apply Nat.eqb_neq; lia).
  rewrite E. clear E E2.
  remember (Border.numPoints points - 2) as k eqn:Hk.
  destruct k as [|k]; [lia|].
  destruct reverse.
  - cbn [downFrom].
    destruct (@chain_joint (Border.makeRay cam points offset true)
                (downFrom (pred (S k)) k) (S k)
                (Segment.ofPlaneRay
                   (Border.makePlane cam points offset true
                      (Border.numPoints points - 1) (S k))
                   (Border.makeRay cam points offset true (S k)))
                (Segment.ofRayPlane (Border.makeRay cam points offset true 1)
                   (Border.makePlane cam points offset true 1 0))
                i (S k - i)) as [s [s' [H1 [H2 [H3 H4]]]]].
    + reflexivity.
    + cbn [Segment.ofRayPlane Segment.edge1]. do 2 f_equal.
      rewrite <- last_cons with (d := 0).
      change (S k :: downFrom (pred (S k)) k) with (downFrom (S k) (S k)).
      rewrite last_downFrom. lia.
    + change (S k :: downFrom (pred (S k)) k) with (downFrom (S k) (S k)).
      apply nth_error_downFrom. exact Hi.
    + exists s, s', (Border.makeRay cam points offset true (S k - i)).
      repeat split; assumption.
  - cbn [seq].
    destruct (@chain_joint (Border.makeRay cam points offset false)
                (seq 2 k) 1
                (Segment.ofPlaneRay (Border.makePlane cam points offset false 0 1)
                   (Border.makeRay cam points offset false 1))
                (Segment.ofRayPlane (Border.makeRay cam points offset false (S k))
                   (Border.makePlane cam points offset false (S k)
                      (Border.numPoints points - 1)))
                i (i + 1)) as [s [s' [H1 [H2 [H3 H4]]]]].
    + reflexivity.
    + cbn [Segment.ofRayPlane Segment.edge1]. do 2 f_equal.
      rewrite <- last_cons with (d := 0).
      change (1 :: seq 2 k) with (seq 1 (S k)).
      rewrite last_seq. lia.
    + change (1 :: seq 2 k) with (seq 1 (S k)).
      rewrite nth_error_seq.
      assert (Hlt : (i <? S k) = true) by (apply Nat.ltb_lt; exact Hi).
      rewrite Hlt. f_equal. lia.
    + exists s, s', (Border.makeRay cam points offset false (i + 1)).
      repeat split; assumption.
Qed.

(** C10.  A border fresh from its constructor has no polyline in any
    segment; so [hasVertices] is false, and [addVertex] stops on a failed
    assertion: in a segment, on the open-polyline assertion when the point
    is on its border (on the [onBorder] assertion before it, otherwise); in
    the border, on the open-polyline assertion of the first segment that
    accepts the point. *)
Theorem make_fresh (cam : Camera) (points : list ivec2) (offset : float) (reverse : bool)
  (b : Border.t) :
  Border.make cam points offset reverse = Ok b ->
  (forall s, In s (Border.segments b) -> Segment.polylines s = []) /\
  Border.hasVertices b = false /\
  (forall s index p, In s (Border.segments b) ->
     Segment.addVertex s index p
     = Abort (if accepts p s then AssertPolylineOpen else AssertOnBorder)) /\
  (forall index p,
     Border.addVertex b index p
     = Abort (if Border.onBorder b p then AssertPolylineOpen else AssertWasAdded)).
Proof.
  intros Hmake. rewrite make_eq in Hmake.
  destruct (2 <=? Border.numPoints points); [|discriminate Hmake].
  injection Hmake as <-. cbn [Border.segments].
  assert (Hfresh : forall s,
             In s (chain (Border.numPoints points) cam points offset reverse) ->
             Segment.polylines s = []).
  { intros s. apply chain_fresh. }
  split; [exact Hfresh|]. split; [|split].
  - unfold Border.hasVertices. cbn [Border.segments].
    destruct (existsb _ _) eqn:E; [|reflexivity].
    apply existsb_exists in E. destruct E as [s [Hs Hv]].
    unfold Segment.hasVertices in Hv. rewrite (Hfresh s Hs) in Hv. discriminate Hv.
  - intros s index p Hs. rewrite segment_addVertex_cases.
    unfold accepts. rewrite (Hfresh s Hs).
    destruct (fst (Segment.onBorder s p)); reflexivity.
  - intros index p. rewrite border_addVertex_eq. cbn [Border.segments].
    destruct (Border.onBorder _ p) eqn:Hb.
    + destruct (forallb _ _) eqn:E; [|reflexivity].
      apply border_onBorder_iff in Hb. destruct Hb as [s [Hs Ha]].
      rewrite forallb_forall in E. specialize (E s Hs).
      unfold accepts, hasOpenPolyline, Segment.isEmpty_polylines in E.
      cbn [Border.segments] in Hs. rewrite Ha, (Hfresh s Hs) in E. discriminate E.
    + assert (E : forallb (fun s => implb (accepts p s) (hasOpenPolyline s))
                    (chain (Border.numPoints points) cam points offset reverse) = true).
      { apply forallb_forall. intros s Hs.
        destruct (accepts p s) eqn:Ha; [|reflexivity].
        assert (Hb' : Border.onBorder
                        {| Border.segments :=
                             chain (Border.numPoints points) cam points offset reverse |}
                        p = true).
        { apply border_onBorder_iff. exists s. split; [exact Hs | exact Ha]. }
        rewrite Hb' in Hb. discriminate Hb. }
      rewrite E. reflexivity.
Qed.

End ConstructionFacts.

(** ** Obtuse angles *)

Section AngleFacts.
Context {SC : Scalar} {PR : Primitives}.

Lemma forReturn_none {A : Type} (count start : nat) (body : nat -> option A) :
  forReturn count start body = None <->
  forall i, start <= i < start + count -> body i = None.
Proof.
  revert start. induction count as [|c IH]; intros start; simpl.
  - split; [intros _ i Hi; lia | reflexivity].
  - destruct (body start) eqn:E.
    + split; [discriminate|]. intros H. rewrite <- E. apply H. lia.
    + rewrite IH. split; intros H i Hi.
      * destruct (Nat.eq_dec i start) as [->|Hne]; [exact E | apply H; lia].
      * apply H. lia.
Qed.

Lemma forReturn_some {A : Type} (count start : nat) (body : nat -> option A) (r : A) :
  forReturn count start body = Some r ->
  exists i, start <= i < start + count /\ body i = Some r.
Proof.
  revert start. induction count as [|c IH]; intros start; simpl; [discriminate|].
  destruct (body start) eqn:E.
  - intros H. injection H as <-. exists start. split; [lia | exact E].
  - intros H. destruct (IH _ H) as [i [Hi Hb]]. exists i. split; [lia | exact Hb].
Qed.

Lemma segmentAt_nth_error (b : Border.t) (i : nat) :
  i < length (Border.segments b) ->
  nth_error (Border.segments b) i = Some (Border.segmentAt b i).
Proof. intros H. unfold Border.segmentAt. apply nth_error_nth'. exact H. Qed.

(** The test of one round of the loop is the sign test of [negativeAt]. *)
Lemma negativeAt_iff (b : Border.t) (i : nat) :
  negativeAt b i <->
  S i < length (Border.segments b) /\
  flt (dot (normal (Segment.plane (Border.segmentAt b i)))
           (normal (Segment.plane (Border.segmentAt b (i + 1))))) f0 = true.
Proof.
  unfold negativeAt. rewrite Nat.add_1_r. split.
  - intros [s [s' [H1 [H2 H3]]]].
    assert (Hlt : S i < length (Border.segments b)).
    { apply nth_error_Some. rewrite H2. discriminate. }
    split; [exact Hlt|].
    rewrite segmentAt_nth_error in H1, H2 by lia.
    injection H1 as <-. injection H2 as <-. exact H3.
  - intros [Hlt H3]. exists (Border.segmentAt b i), (Border.segmentAt b (S i)).
    repeat split; try exact H3; apply segmentAt_nth_error; lia.
Qed.

(** C6, as the code has it.  [onlyObtuseAngles] is false exactly for a
    border of more than two segments in which some two consecutive plane
    normals have a negative dot product.  So it is true for every convex
    chain, and it is true for every border of one or two segments, a
    reflexed pair of segments included. *)
Theorem onlyObtuseAngles_cases (b : Border.t) :
  (Border.onlyObtuseAngles b = false <->
     2 < length (Border.segments b) /\ reflexed b) /\
  (convex b -> Border.onlyObtuseAngles b = true) /\
  (length (Border.segments b) <= 2 -> Border.onlyObtuseAngles b = true).
Proof.
  assert (Hiff : Border.onlyObtuseAngles b = false <->
                 2 < length (Border.segments b) /\ reflexed b).
  { unfold Border.onlyObtuseAngles, reflexed. cbn [Segment.plane Segment.ofPlane].
    set (body := fun i : nat =>
           if flt (dot (normal (Segment.plane (Border.segmentAt b i)))
                       (normal (Segment.plane (Border.segmentAt b (i + 1))))) f0
           then Some false else None).
    assert (Hbody : forall i r, body i = Some r ->
              r = false /\
              flt (dot (normal (Segment.plane (Border.segmentAt b i)))
                       (normal (Segment.plane (Border.segmentAt b (i + 1))))) f0 = true).
    { intros i r. unfold body. destruct (flt _ f0); [|discriminate].
      intros H. injection H as <-. split; reflexivity. }
    destruct (2 <? length (Border.segments b)) eqn:Hlen.
    - apply Nat.ltb_lt in Hlen.
      destruct (forReturn (length (Border.segments b) - 1) 0 body) as [r|] eqn:Hloop.
      + destruct (forReturn_some _ _ _ Hloop) as [i [Hi Hb]].
        destruct (Hbody i r Hb) as [-> Hneg].
        split; [|reflexivity]. intros _. split; [exact Hlen|].
        exists i. apply negativeAt_iff. split; [lia | exact Hneg].
      + split; [discriminate|]. intros [_ [i Hneg]].
        apply negativeAt_iff in Hneg. destruct Hneg as [Hi Hneg].
        rewrite forReturn_none in Hloop.
        assert (Hb : body i = None) by (apply Hloop; lia).
        unfold body in Hb. rewrite Hneg in Hb. discriminate Hb.
    - apply Nat.ltb_ge in Hlen. split; [discriminate|]. intros [H _]. lia. }
  split; [exact Hiff|]. split.
  - intros Hconvex. destruct (Border.onlyObtuseAngles b); [reflexivity|].
    destruct (proj1 Hiff eq_refl) as [_ [i Hneg]]. elim (Hconvex i Hneg).
  - intros Hlen. destruct (Border.onlyObtuseAngles b); [reflexivity|].
    destruct (proj1 Hiff eq_refl) as [Hgt _]. lia.
Qed.

End AngleFacts.

(** ** More on construction *)

Section MoreConstructionFacts.
Context {SC : Scalar} {PR : Primitives}.

Lemma numPoints_short (points : list ivec2) :
  length points < 2 -> Border.numPoints points = length points.
Proof.
  intros H. apply numPoints_fits.
  change (2 ^ 32)%N with 4294967296%N. lia.
Qed.

Lemma chain_nonempty (n : nat) (cam : Camera) (points : list ivec2) (offset : float)
  (reverse : bool) :
  chain n cam points offset reverse <> [].
Proof.
  unfold chain. destruct (n =? 2); [discriminate|].
  destruct reverse; discriminate.
Qed.

(** X1.  The constructor stops on [assert (n >= 2)], and on nothing else,
    exactly when the number of points it reads is below two; so it refuses
    the empty sequence and a single point.  A border it returns has at
    least one segment. *)
Theorem make_refuses (cam : Camera) (points : list ivec2) (offset : float)
  (reverse : bool) :
  (Border.make cam points offset reverse = Abort AssertNumPoints <->
     Border.numPoints points < 2) /\
  (forall f, Border.make cam points offset reverse = Abort f -> f = AssertNumPoints) /\
  (length points < 2 -> Border.make cam points offset reverse = Abort AssertNumPoints) /\
  (forall b, Border.make cam points offset reverse = Ok b -> Border.segments b <> []).
Proof.
  rewrite make_eq.
  destruct (2 <=? Border.numPoints points) eqn:Hn.
  - apply Nat.leb_le in Hn. repeat split.
    + discriminate.
    + intros H. lia.
    + intros f H. discriminate H.
    + intros H. rewrite (numPoints_short points H) in Hn. lia.
    + intros b H. injection H as <-. apply chain_nonempty.
  - apply Nat.leb_gt in Hn. repeat split.
    + intros _. exact Hn.
    + intros f H. injection H as <-. reflexivity.
    + intros b H. discriminate H.
Qed.

Lemma middle_map (mk mk' : nat -> PrimRay) (f : nat -> nat) (js : list nat) :
  (forall j, In j js -> mk' j = mk (f j)) ->
  middle mk' js = middle mk (map f js).
Proof.
  induction js as [|j0 js IH]; intros H; [reflexivity|].
  destruct js as [|j1 js]; [reflexivity|].
  cbn [map]. rewrite !middle_cons.
  rewrite (H j0) by (left; reflexivity).
  rewrite (H j1) by (right; left; reflexivity).
  f_equal. apply IH. intros j Hj. apply H. right. exact Hj.
Qed.

Lemma map_sub_seq (a start count : nat) :
  map (fun j => a - j) (seq start count) = downFrom (a - start) count.
Proof.
  revert start. induction count as [|c IH]; intros start; [reflexivity|].
  cbn [seq map downFrom]. rewrite IH. f_equal. f_equal. lia.
Qed.

Lemma numPoints_rev (points : list ivec2) :
  Border.numPoints (rev points) = Border.numPoints points.
Proof. unfold Border.numPoints. rewrite length_rev. reflexivity. Qed.

Lemma pointAtIndex_rev (points : list ivec2) (i : nat) :
  i < length points ->
  Border.pointAtIndex (rev points) i = Border.pointAtIndex points (length points - 1 - i).
Proof.
  intros H. unfold Border.pointAtIndex. rewrite rev_nth by exact H.
  f_equal. lia.
Qed.

Section Reversal.
Variables (cam : Camera) (points : list ivec2) (offset : float).
Hypothesis fits : (N.of_nat (length points) < 2 ^ 32)%N.
Hypothesis enough : 2 <= length points.

Lemma baseNormal_rev :
  Border.baseNormal cam (rev points) false = Border.baseNormal cam points true.
Proof.
  unfold Border.baseNormal, Border.rLast, Border.rFirst.
  rewrite numPoints_rev, (numPoints_fits points fits).
  rewrite !pointAtIndex_rev by lia.
  replace (length points - 1 - (length points - 1)) with 0 by lia.
  rewrite Nat.sub_0_r. reflexivity.
Qed.

Lemma makeRay_rev (i : nat) :
  i < length points ->
  Border.makeRay cam (rev points) offset false i
  = Border.makeRay cam points offset true (length points - 1 - i).
Proof.
  intros H. unfold Border.makeRay. rewrite baseNormal_rev, pointAtIndex_rev by exact H.
  reflexivity.
Qed.

Lemma makePlane_rev (i1 i2 : nat) :
  i1 < length points -> i2 < length points ->
  Border.makePlane cam (rev points) offset false i1 i2
  = Border.makePlane cam points offset true
      (length points - 1 - i1) (length points - 1 - i2).
Proof.
  intros H1 H2. unfold Border.makePlane.
  rewrite baseNormal_rev, !pointAtIndex_rev by assumption. reflexivity.
Qed.

Lemma chain_rev :
  chain (length points) cam (rev points) offset false
  = chain (length points) cam points offset true.
Proof.
  unfold chain. destruct (length points =? 2) eqn:E2.
  - apply Nat.eqb_eq in E2. rewrite makePlane_rev by lia.
    rewrite E2. reflexivity.
  - apply Nat.eqb_neq in E2.
    rewrite !makePlane_rev, !makeRay_rev by lia.
    rewrite (@middle_map (Border.makeRay cam points offset true)
               (Border.makeRay cam (rev points) offset false)
               (fun j => length points - 1 - j)).
    + rewrite map_sub_seq.
      replace (length points - 1 - 0) with (length points - 1) by lia.
      replace (length points - 1 - 1) with (length points - 2) by lia.
      replace (length points - 1 - (length points - 2)) with 1 by lia.
      replace (length points - 1 - (length points - 1)) with 0 by lia.
      reflexivity.
    + intros j Hj. apply in_seq in Hj. apply makeRay_rev. lia.
Qed.

End Reversal.

(** X2.  Asking for the reversed traversal is the same as handing over the
    reversed point sequence: both constructions give the same border,
    plane for plane and ray for ray (or both stop), for every sequence
    whose size fits 32 bits. *)
Theorem make_reverse (cam : Camera) (points : list ivec2) (offset : float) :
  (N.of_nat (length points) < 2 ^ 32)%N ->
  Border.make cam points offset true = Border.make cam (rev points) offset false.
Proof.
  intros Hfits. rewrite !make_eq, numPoints_rev, (numPoints_fits points Hfits).
  destruct (2 <=? length points) eqn:Hn; [|reflexivity].
  apply Nat.leb_le in Hn. rewrite chain_rev by assumption. reflexivity.
Qed.

Lemma chain_arity (n : nat) (cam : Camera) (points : list ivec2) (offset : float)
  (reverse : bool) :
  2 <= n -> map arity (chain n cam points offset reverse) = chainArities n.
Proof.
  intros Hn. unfold chain, chainArities. destruct (n =? 2) eqn:E2.
  - destruct reverse; reflexivity.
  - apply Nat.eqb_neq in E2. destruct reverse; cbn [map];
      rewrite map_app, middle_arity.
    + rewrite downFrom_length. replace (n - 2 - 1) with (n - 3) by lia. reflexivity.
    + rewrite length_seq. replace (n - 2 - 1) with (n - 3) by lia. reflexivity.
Qed.

Lemma chainArities_length (n : nat) : 2 <= n -> length (chainArities n) = n - 1.
Proof.
  intros Hn. unfold chainArities. destruct (n =? 2) eqn:E2.
  - apply Nat.eqb_eq in E2. subst n. reflexivity.
  - apply Nat.eqb_neq in E2. cbn [length]. rewrite length_app, repeat_length. simpl. lia.
Qed.

(** Only the last arity of a chain lacks a trailing ray. *)
Lemma chainArities_nth (n i : nat) (a : Arity) :
  2 <= n -> nth_error (chainArities n) i = Some a ->
  (i + 1 < n - 1 -> a = PlaneRay \/ a = RayRay) /\
  (i + 1 = n - 1 -> a = PlaneOnly \/ a = RayPlane).
Proof.
  intros Hn. unfold chainArities. destruct (n =? 2) eqn:E2.
  - apply Nat.eqb_eq in E2. subst n.
    destruct i as [|i]; [|destruct i; discriminate].
    intros H. injection H as <-. split; [lia | intros _; left; reflexivity].
  - apply Nat.eqb_neq in E2. destruct i as [|i].
    + intros H. injection H as <-. split; [intros _; left; reflexivity | lia].
    + cbn [nth_error]. intros H.
      destruct (Nat.lt_ge_cases i (n - 3)) as [Hlt | Hge].
      * rewrite nth_error_app1 in H by (rewrite repeat_length; exact Hlt).
        apply nth_error_In, repeat_spec in H. subst a.
        split; [intros _; right; reflexivity | lia].
      * rewrite nth_error_app2 in H by (rewrite repeat_length; exact Hge).
        rewrite repeat_length in H.
        destruct (i - (n - 3)) as [|k] eqn:Ek; [|destruct k; discriminate].
        injection H as <-. split; [lia | intros _; right; reflexivity].
Qed.

(** X3.  In a constructed border, [segment (i)] is there exactly for
    [i < numSegments ()]; the [edge ()] of every segment but the last is
    its trailing ray, and [edge ()] of the last segment (the only one, for
    a two-point stroke) stops on [assert (this->edge2)]. *)
Theorem make_edge (cam : Camera) (points : list ivec2) (offset : float) (reverse : bool)
  (b : Border.t) (i : nat) :
  Border.make cam points offset reverse = Ok b ->
  (i + 1 < Border.numSegments b ->
     exists s r, Border.segment b i = Ok s /\ Segment.edge s = Ok r /\
                 Segment.edge2 s = Some r) /\
  (i + 1 = Border.numSegments b ->
     exists s, Border.segment b i = Ok s /\ Segment.edge s = Abort AssertEdge) /\
  (Border.numSegments b <= i -> Border.segment b i = Abort AssertSegmentIndex).
Proof.
  intros Hmake. rewrite make_eq in Hmake.
  destruct (2 <=? Border.numPoints points) eqn:Hn; [|discriminate Hmake].
  apply Nat.leb_le in Hn. injection Hmake as <-.
  unfold Border.numSegments, Border.segment. cbn [Border.segments].
  set (segs := chain (Border.numPoints points) cam points offset reverse).
  assert (Har : map arity segs = chainArities (Border.numPoints points))
    by (apply chain_arity; exact Hn).
  assert (Hlen : length segs = Border.numPoints points - 1).
  { rewrite <- (length_map arity), Har. apply chainArities_length. exact Hn. }
  assert (Hat : forall s, nth_error segs i = Some s ->
            (i + 1 < Border.numPoints points - 1 -> arity s = PlaneRay \/ arity s = RayRay) /\
            (i + 1 = Border.numPoints points - 1 -> arity s = PlaneOnly \/ arity s = RayPlane)).
  { intros s Hs. apply chainArities_nth; [exact Hn|].
    rewrite <- Har. apply map_nth_error. exact Hs. }
  rewrite Hlen. repeat split.
  - intros Hi. destruct (nth_error segs i) as [s|] eqn:Hs.
    + destruct (Hat s eq_refl) as [H _]. specialize (H Hi).
      unfold arity in H. destruct (Segment.edge2 s) as [r|] eqn:E2.
      * exists s, r. unfold Segment.edge. rewrite E2. repeat split; reflexivity.
      * destruct (Segment.edge1 s); destruct H; discriminate.
    + apply nth_error_None in Hs. lia.
  - intros Hi. destruct (nth_error segs i) as [s|] eqn:Hs.
    + destruct (Hat s eq_refl) as [_ H]. specialize (H Hi).
      unfold arity in H. destruct (Segment.edge2 s) as [r|] eqn:E2.
      * destruct (Segment.edge1 s); destruct H; discriminate.
      * exists s. unfold Segment.edge. rewrite E2. split; reflexivity.
    + apply nth_error_None in Hs. lia.
  - intros Hi. destruct (nth_error segs i) as [s|] eqn:Hs; [|reflexivity].
    assert (i < length segs) by (apply nth_error_Some; rewrite Hs; discriminate). lia.
Qed.

End MoreConstructionFacts.

(** ** Finding the segment of two border points *)

Section GetSegmentFacts.
Context {SC : Scalar} {PR : Primitives}.

Lemma getSegmentFrom_find (segs : list Segment.t) (v1 v2 : vec3) :
  Border.getSegmentFrom segs v1 v2 =
    match find (selectable v1 v2) segs with
    | Some s => Ok s
    | None => Abort Impossible
    end.
Proof.
  induction segs as [|s segs IH]; [reflexivity|].
  cbn [Border.getSegmentFrom find]. rewrite IH. unfold selectable.
  destruct (Segment.onBorder s v1) as [on1 e1].
  destruct on1; cbn [fst snd andb].
  - destruct (Segment.onBorder s v2) as [on2 e2]. cbn [fst snd].
    destruct (on2 && (negb e1 || negb e2)); reflexivity.
  - reflexivity.
Qed.

Lemma selectable_sym (v1 v2 : vec3) (s : Segment.t) :
  selectable v1 v2 s = selectable v2 v1 s.
Proof.
  unfold selectable.
  rewrite (andb_comm (fst (Segment.onBorder s v1))).
  rewrite (orb_comm (negb (snd (Segment.onBorder s v1)))). reflexivity.
Qed.

Lemma find_first {A : Type} (f : A -> bool) (l : list A) (a : A) :
  find f l = Some a ->
  exists before after,
    l = before ++ a :: after /\ f a = true /\ forall x, In x before -> f x = false.
Proof.
  induction l as [|x l IH]; [discriminate|]. cbn [find].
  destruct (f x) eqn:Hx.
  - intros H. injection H as <-. exists [], l. repeat split; [exact Hx | intros y []].
  - intros H. destruct (IH H) as [before [after [-> [Ha Hb]]]].
    exists (x :: before), after. repeat split; [exact Ha|].
    intros y [<- | Hy]; [exact Hx | apply Hb, Hy].
Qed.

(** X4.  [getSegment (v1, v2)] returns the first segment, in chain order,
    on whose border both points lie and for which not both lie on an edge;
    it reaches [DILAY_IMPOSSIBLE] exactly when the border has no such
    segment, two points on one shared ray among the cases. *)
Theorem getSegment_first (b : Border.t) (v1 v2 : vec3) :
  (forall s, Border.getSegment b v1 v2 = Ok s ->
     fst (Segment.onBorder s v1) = true /\ fst (Segment.onBorder s v2) = true /\
     (snd (Segment.onBorder s v1) = false \/ snd (Segment.onBorder s v2) = false) /\
     exists before after,
       Border.segments b = before ++ s :: after /\
       forall x, In x before -> selectable v1 v2 x = false) /\
  (Border.getSegment b v1 v2 = Abort Impossible <->
     forall s, In s (Border.segments b) -> selectable v1 v2 s = false) /\
  (forall f, Border.getSegment b v1 v2 = Abort f -> f = Impossible).
Proof.
  unfold Border.getSegment. rewrite getSegmentFrom_find.
  destruct (find (selectable v1 v2) (Border.segments b)) as [s0|] eqn:Hfind.
  - destruct (find_first _ _ Hfind) as [before [after [Hsplit [Hsel Hbefore]]]].
    split; [|split].
    + intros s H. injection H as <-. unfold selectable in Hsel.
      apply andb_true_iff in Hsel. destruct Hsel as [Hon Hedge].
      apply andb_true_iff in Hon. destruct Hon as [Hon1 Hon2].
      split; [exact Hon1|]. split; [exact Hon2|]. split.
      * apply orb_true_iff in Hedge.
        destruct Hedge as [He | He]; apply negb_true_iff in He;
          [left | right]; exact He.
      * exists before, after. split; assumption.
    + split; [discriminate|].
      intros H. rewrite (H s0) in Hsel; [discriminate|].
      rewrite Hsplit. apply in_or_app. right. left. reflexivity.
    + intros f H. discriminate H.
  - split; [|split].
    + intros s H. discriminate H.
    + split; [|reflexivity].
      intros _ s Hs. apply (find_none _ _ Hfind s Hs).
    + intros f H. injection H as <-. reflexivity.
Qed.

(** X5.  [getSegment] does not depend on the order of its two points. *)
Theorem getSegment_symmetric (b : Border.t) (v1 v2 : vec3) :
  Border.getSegment b v1 v2 = Border.getSegment b v2 v1.
Proof.
  unfold Border.getSegment. rewrite !getSegmentFrom_find.
  assert (E : find (selectable v1 v2) (Border.segments b)
              = find (selectable v2 v1) (Border.segments b)).
  { induction (Border.segments b) as [|s segs IH]; [reflexivity|].
    cbn [find]. rewrite IH, selectable_sym. reflexivity. }
  rewrite E. reflexivity.
Qed.

End GetSegmentFacts.

(** ** Pruning and renumbering polylines *)

Section PruneFacts.
Context {SC : Scalar} {PR : Primitives}.

Lemma filter_nonempty_concat (pls : Segment.Polylines) :
  concat (filter (fun p => negb (Segment.isEmpty p)) pls) = concat pls.
Proof.
  induction pls as [|p pls IH]; [reflexivity|].
  cbn [filter]. destruct p as [|i p]; cbn [Segment.isEmpty negb concat].
  - exact IH.
  - rewrite IH. reflexivity.
Qed.

Lemma filter_twice {A : Type} (f : A -> bool) (l : list A) :
  filter f (filter f l) = filter f l.
Proof.
  induction l as [|a l IH]; [reflexivity|].
  cbn [filter]. destruct (f a) eqn:E; [|exact IH].
  cbn [filter]. rewrite E, IH. reflexivity.
Qed.

Lemma hasVertices_stored (s : Segment.t) :
  Segment.hasVertices s = negb (match storedIndices s with [] => true | _ => false end).
Proof.
  unfold Segment.hasVertices, storedIndices.
  induction (Segment.polylines s) as [|p pls IH]; [reflexivity|].
  cbn [existsb concat]. destruct p as [|i p]; [exact IH | reflexivity].
Qed.

Lemma segment_prune (s : Segment.t) :
  Segment.deleteEmptyPolylines (Segment.deleteEmptyPolylines s)
  = Segment.deleteEmptyPolylines s /\
  storedIndices (Segment.deleteEmptyPolylines s) = storedIndices s /\
  Segment.hasVertices (Segment.deleteEmptyPolylines s) = Segment.hasVertices s /\
  (forall p, In p (Segment.polylines (Segment.deleteEmptyPolylines s)) -> p <> []) /\
  Segment.hasVertices s
  = negb (Segment.isEmpty_polylines (Segment.deleteEmptyPolylines s)).
Proof.
  assert (Hst : storedIndices (Segment.deleteEmptyPolylines s) = storedIndices s).
  { unfold storedIndices, Segment.deleteEmptyPolylines. cbn [Segment.polylines Segment.withPolylines].
    apply filter_nonempty_concat. }
  split; [|split; [exact Hst | split; [|split]]].
  - unfold Segment.deleteEmptyPolylines, Segment.withPolylines.
    cbn [Segment.polylines Segment.plane Segment.edge1 Segment.edge2].
    rewrite filter_twice. reflexivity.
  - rewrite !hasVertices_stored, Hst. reflexivity.
  - unfold Segment.deleteEmptyPolylines. cbn [Segment.polylines Segment.withPolylines].
    intros p Hp. apply filter_In in Hp. destruct Hp as [_ Hp].
    destruct p; [discriminate Hp | discriminate].
  - unfold Segment.hasVertices, Segment.isEmpty_polylines, Segment.deleteEmptyPolylines.
    cbn [Segment.polylines Segment.withPolylines].
    induction (Segment.polylines s) as [|p pls IH]; [reflexivity|].
    cbn [existsb filter]. destruct p as [|i p]; [exact IH | reflexivity].
Qed.

(** X6.  [deleteEmptyPolylines] drops the empty polylines and nothing
    else: the indices a segment stores, in their order, are unchanged, no
    polyline left is empty, and a second call changes nothing; afterwards a
    segment has a polyline exactly when it has vertices, and [hasVertices]
    of the border is what it was. *)
Theorem deleteEmptyPolylines_prunes (b : Border.t) :
  Border.deleteEmptyPolylines (Border.deleteEmptyPolylines b)
  = Border.deleteEmptyPolylines b /\
  map storedIndices (Border.segments (Border.deleteEmptyPolylines b))
  = map storedIndices (Border.segments b) /\
  Border.hasVertices (Border.deleteEmptyPolylines b) = Border.hasVertices b /\
  (forall s p, In s (Border.segments (Border.deleteEmptyPolylines b)) ->
     In p (Segment.polylines s) -> p <> []) /\
  (forall s, In s (Border.segments (Border.deleteEmptyPolylines b)) ->
     Segment.hasVertices s = negb (Segment.isEmpty_polylines s)).
Proof.
  unfold Border.deleteEmptyPolylines, Border.hasVertices. cbn [Border.segments].
  repeat split.
  - f_equal. rewrite map_map. apply map_ext. intros s. apply segment_prune.
  - rewrite map_map. apply map_ext. intros s. apply segment_prune.
  - induction (Border.segments b) as [|s segs IH]; [reflexivity|].
    cbn [map existsb]. rewrite IH.
    destruct (segment_prune s) as [_ [_ [H _]]]. rewrite H. reflexivity.
  - intros s p Hs Hp. apply in_map_iff in Hs. destruct Hs as [s0 [<- _]].
    destruct (segment_prune s0) as [_ [_ [_ [H _]]]]. apply (H p Hp).
  - intros s Hs. apply in_map_iff in Hs. destruct Hs as [s0 [<- _]].
    destruct (segment_prune s0) as [_ [_ [H3 [_ H5]]]].
    rewrite H3, H5. reflexivity.
Qed.

End PruneFacts.

(** ** Renumbering, in general *)

Section RenumberFacts.
Context {SC : Scalar} {PR : Primitives}.

Lemma forEach_map {A : Type} (body : A -> Result A) (f : A -> A) (l : list A) :
  (forall a, In a l -> body a = Ok (f a)) -> forEach body l = Ok (map f l).
Proof.
  induction l as [|a l IH]; intros H; [reflexivity|].
  cbn [forEach map]. rewrite (H a (or_introl eq_refl)). cbn [bind].
  rewrite IH; [reflexivity|]. intros a' Ha'. apply H. right. exact Ha'.
Qed.

Lemma forEach_ok {A : Type} (body : A -> Result A) (l l' : list A) :
  forEach body l = Ok l' -> forall a, In a l -> exists a', body a = Ok a'.
Proof.
  revert l'. induction l as [|x l IH]; intros l' H a Ha; [destruct Ha|].
  cbn [forEach] in H. destruct (body x) as [x'|f] eqn:Hx; [|discriminate H].
  cbn [bind] in H. destruct (forEach body l) as [t'|f] eqn:Ht; [|discriminate H].
  destruct Ha as [<- | Ha]; [exists x'; exact Hx | apply (IH t' eq_refl a Ha)].
Qed.

Lemma forEach_abort {A : Type} (body : A -> Result A) (l : list A) (f : Fatal) :
  forEach body l = Abort f -> exists a, In a l /\ body a = Abort f.
Proof.
  induction l as [|x l IH]; [discriminate|].
  cbn [forEach]. destruct (body x) as [x'|g] eqn:Hx; cbn [bind].
  - destruct (forEach body l) as [t'|g] eqn:Ht; cbn [bind]; [discriminate|].
    intros H. injection H as <-. destruct (IH eq_refl) as [a [Ha Hb]].
    exists a. split; [right; exact Ha | exact Hb].
  - intros H. injection H as <-. exists x. split; [left; reflexivity | exact Hx].
Qed.

Lemma renumber_valid (m : list N) (i : N) :
  validPosition m i ->
  nth_error m (N.to_nat i) = Some (renumber m i) /\ renumber m i <> invalidIndex.
Proof.
  intros [v [Hv Hne]]. unfold renumber.
  rewrite (nth_error_nth _ _ 0%N Hv). split; [exact Hv | exact Hne].
Qed.

Lemma setNewIndex_valid (m : list N) (i : N) :
  validPosition m i -> Segment.setNewIndex m i = Ok (renumber m i).
Proof.
  intros H. destruct (renumber_valid H) as [Hv Hne].
  unfold Segment.setNewIndex, Segment.at_. rewrite Hv. cbn [bind]. unfold assert.
  destruct (N.eqb_spec (renumber m i) invalidIndex) as [E|_]; [contradiction|].
  reflexivity.
Qed.

Lemma setNewIndex_cases (m : list N) (i : N) :
  (forall v, Segment.setNewIndex m i = Ok v -> validPosition m i) /\
  (forall f, Segment.setNewIndex m i = Abort f -> lookupFails m i f).
Proof.
  unfold Segment.setNewIndex, Segment.at_, lookupFails, validPosition, assert.
  destruct (nth_error m (N.to_nat i)) as [v0|] eqn:Hv; cbn [bind].
  - destruct (N.eqb_spec v0 invalidIndex) as [E|E]; cbn [negb bind]; split.
    + intros v H. discriminate H.
    + intros f H. injection H as <-. right. subst v0. split; reflexivity.
    + intros v _. exists v0. split; [reflexivity | exact E].
    + intros f H. discriminate H.
  - split.
    + intros v H. discriminate H.
    + intros f H. injection H as <-. left. split; [reflexivity|].
      apply nth_error_None. exact Hv.
Qed.

Lemma segment_setNewIndices_valid (m : list N) (s : Segment.t) :
  (forall i, In i (storedIndices s) -> validPosition m i) ->
  Segment.setNewIndices s m = Ok (renumbered m s).
Proof.
  intros H. unfold Segment.setNewIndices, renumbered.
  rewrite (@forEach_map _ _ (map (renumber m))); [reflexivity|].
  intros pl Hpl. apply forEach_map. intros i Hi. apply setNewIndex_valid, H.
  unfold storedIndices. apply in_concat. exists pl. split; assumption.
Qed.

Lemma segment_setNewIndices_cases (m : list N) (s : Segment.t) :
  (forall s', Segment.setNewIndices s m = Ok s' ->
     forall i, In i (storedIndices s) -> validPosition m i) /\
  (forall f, Segment.setNewIndices s m = Abort f ->
     exists i, In i (storedIndices s) /\ lookupFails m i f).
Proof.
  unfold Segment.setNewIndices, storedIndices. split.
  - intros s' H i Hi.
    destruct (forEach (forEach (Segment.setNewIndex m)) (Segment.polylines s))
      as [pls|f] eqn:Hall; [|discriminate H].
    apply in_concat in Hi. destruct Hi as [pl [Hpl Hi]].
    destruct (forEach_ok _ _ Hall pl Hpl) as [pl' Hpl'].
    destruct (forEach_ok _ _ Hpl' i Hi) as [v Hv].
    apply (proj1 (setNewIndex_cases m i) v Hv).
  - intros f H.
    destruct (forEach (forEach (Segment.setNewIndex m)) (Segment.polylines s))
      as [pls|g] eqn:Hall; [discriminate H|].
    cbn [bind] in H. injection H as <-.
    destruct (forEach_abort _ _ Hall) as [pl [Hpl Hab]].
    destruct (forEach_abort _ _ Hab) as [i [Hi Hf]].
    exists i. split.
    + apply in_concat. exists pl. split; assumption.
    + apply (proj2 (setNewIndex_cases m i) g Hf).
Qed.

Lemma border_setNewIndices_valid (b : Border.t) (m : list N) :
  (forall s i, In s (Border.segments b) -> In i (storedIndices s) ->
     validPosition m i) ->
  Border.setNewIndices b m
  = Ok {| Border.segments := map (renumbered m) (Border.segments b) |}.
Proof.
  intros H. unfold Border.setNewIndices.
  rewrite (@forEach_map _ _ (renumbered m)); [reflexivity|].
  intros s Hs. apply segment_setNewIndices_valid. intros i Hi. apply (H s i Hs Hi).
Qed.

Lemma border_setNewIndices_ok (b b' : Border.t) (m : list N) :
  Border.setNewIndices b m = Ok b' ->
  forall s i, In s (Border.segments b) -> In i (storedIndices s) -> validPosition m i.
Proof.
  unfold Border.setNewIndices. intros H s i Hs Hi.
  destruct (forEach (fun s => Segment.setNewIndices s m) (Border.segments b))
    as [segs|f] eqn:Hall; [|discriminate H].
  destruct (forEach_ok _ _ Hall s Hs) as [s' Hs'].
  apply (proj1 (segment_setNewIndices_cases m s) s' Hs' i Hi).
Qed.

(** X7.  [setNewIndices] either renumbers every stored index of every
    segment by the mapping, or stops without a result.  It succeeds exactly
    when every stored index is a valid position of the mapping; when it
    stops, some stored index is beyond the mapping ([vector::at] throws) or
    is mapped to the invalid index (the assertion fails). *)
Theorem setNewIndices_renumbers (b : Border.t) (m : list N) :
  ((forall s i, In s (Border.segments b) -> In i (storedIndices s) ->
      validPosition m i) ->
   Border.setNewIndices b m
   = Ok {| Border.segments := map (renumbered m) (Border.segments b) |}) /\
  (forall b', Border.setNewIndices b m = Ok b' ->
     forall s i, In s (Border.segments b) -> In i (storedIndices s) ->
       validPosition m i) /\
  (forall f, Border.setNewIndices b m = Abort f ->
     exists s i, In s (Border.segments b) /\ In i (storedIndices s) /\
                 lookupFails m i f).
Proof.
  split; [apply border_setNewIndices_valid|].
  split; [intros b'; apply border_setNewIndices_ok|].
  unfold Border.setNewIndices. intros f H.
  destruct (forEach (fun s => Segment.setNewIndices s m) (Border.segments b))
    as [segs|g] eqn:Hall; [discriminate H|].
  cbn [bind] in H. injection H as <-.
  destruct (forEach_abort _ _ Hall) as [s [Hs Hab]].
  destruct (proj2 (segment_setNewIndices_cases m s) g Hab) as [i [Hi Hf]].
  exists s, i. repeat split; assumption.
Qed.

Lemma storedIndices_renumbered (m : list N) (s : Segment.t) :
  storedIndices (renumbered m s) = map (renumber m) (storedIndices s).
Proof.
  unfold storedIndices, renumbered. cbn [Segment.polylines Segment.withPolylines].
  symmetry. apply concat_map.
Qed.

Lemma composeMapping_valid (m1 m2 : list N) (i : N) :
  validPosition m1 i -> validPosition m2 (renumber m1 i) ->
  validPosition (composeMapping m1 m2) i /\
  renumber (composeMapping m1 m2) i = renumber m2 (renumber m1 i).
Proof.
  intros H1 H2. destruct (renumber_valid H1) as [Hv1 _].
  destruct (renumber_valid H2) as [_ Hne2].
  assert (Hc : nth_error (composeMapping m1 m2) (N.to_nat i)
               = Some (renumber m2 (renumber m1 i))).
  { unfold composeMapping. rewrite nth_error_map, Hv1. reflexivity. }
  split.
  - exists (renumber m2 (renumber m1 i)). split; [exact Hc | exact Hne2].
  - unfold renumber at 1. apply (nth_error_nth _ _ 0%N Hc).
Qed.

(** X8.  Renumbering twice is renumbering once by the composed mapping:
    when [setNewIndices] with [m1] and then with [m2] both succeed,
    [setNewIndices] with the mapping [i |-> m2[m1[i]]] succeeds on the
    original border and gives the same result. *)
Theorem setNewIndices_compose (b b1 b2 : Border.t) (m1 m2 : list N) :
  Border.setNewIndices b m1 = Ok b1 ->
  Border.setNewIndices b1 m2 = Ok b2 ->
  Border.setNewIndices b (composeMapping m1 m2) = Ok b2.
Proof.
  intros H1 H2.
  pose proof (@border_setNewIndices_ok _ _ _ H1) as Hval1.
  pose proof (@border_setNewIndices_ok _ _ _ H2) as Hval2.
  rewrite (@border_setNewIndices_valid _ _ Hval1) in H1. injection H1 as <-.
  rewrite (@border_setNewIndices_valid _ _ Hval2) in H2. injection H2 as <-.
  cbn [Border.segments] in Hval2.
  assert (Hboth : forall s i, In s (Border.segments b) -> In i (storedIndices s) ->
            validPosition (composeMapping m1 m2) i /\
            renumber (composeMapping m1 m2) i = renumber m2 (renumber m1 i)).
  { intros s i Hs Hi. apply composeMapping_valid; [apply (Hval1 s i Hs Hi)|].
    apply (Hval2 (renumbered m1 s)).
    - apply in_map. exact Hs.
    - rewrite storedIndices_renumbered. apply in_map. exact Hi. }
  rewrite border_setNewIndices_valid by (intros s i Hs Hi; apply (Hboth s i Hs Hi)).
  f_equal. f_equal. rewrite map_map. apply map_ext_in. intros s Hs.
  unfold renumbered. cbn [Segment.polylines Segment.withPolylines
                          Segment.plane Segment.edge1 Segment.edge2].
  unfold Segment.withPolylines. f_equal.
  rewrite map_map. apply map_ext_in. intros pl Hpl.
  rewrite map_map. apply map_ext_in. intros i Hi.
  apply (Hboth s i Hs). unfold storedIndices. apply in_concat.
  exists pl. split; assumption.
Qed.

End RenumberFacts.

(** ** Queries read the planes and edges only *)

Section GeometryFacts.
Context {SC : Scalar} {PR : Primitives}.

Lemma geometry_onBorder (s s' : Segment.t) (p : vec3) :
  geometry s = geometry s' -> Segment.onBorder s p = Segment.onBorder s' p.
Proof.
  unfold geometry. intros H. injection H as Hp H1 H2.
  unfold Segment.onBorder, Segment.isValidProjection. rewrite Hp, H1, H2. reflexivity.
Qed.

Lemma geometry_intersects (s s' : Segment.t) (r : PrimRay) :
  geometry s = geometry s' -> Segment.intersects s r = Segment.intersects s' r.
Proof.
  unfold geometry. intros H. injection H as Hp H1 H2.
  unfold Segment.intersects, Segment.isValidProjection. rewrite Hp, H1, H2. reflexivity.
Qed.

Lemma geometry_withPolylines (s : Segment.t) (pls : Segment.Polylines) :
  geometry (Segment.withPolylines s pls) = geometry s.
Proof. reflexivity. Qed.

Lemma sameGeometry_Forall2 (l l' : list Segment.t) :
  map geometry l = map geometry l' ->
  Forall2 (fun s s' => geometry s = geometry s') l l'.
Proof.
  revert l'. induction l as [|s l IH]; intros [|s' l'] H; try discriminate H.
  - constructor.
  - cbn [map] in H. constructor.
    + apply (f_equal (hd (geometry s))) in H. exact H.
    + apply IH. apply (f_equal (@tl _)) in H. exact H.
Qed.

Lemma forReturn_ext {A : Type} (count start : nat) (body body' : nat -> option A) :
  (forall i, body i = body' i) ->
  forReturn count start body = forReturn count start body'.
Proof.
  intros H. revert start. induction count as [|c IH]; intros start; [reflexivity|].
  cbn [forReturn]. rewrite H, IH. reflexivity.
Qed.

Lemma Forall2_geometry (l l' : list Segment.t) :
  Forall2 (fun s s' => geometry s = geometry s') l l' ->
  (forall p, existsb (fun s => fst (Segment.onBorder s p)) l'
             = existsb (fun s => fst (Segment.onBorder s p)) l) /\
  (forall acc, fold_left (fun d s => vsub d (normal (Segment.plane s))) l' acc
               = fold_left (fun d s => vsub d (normal (Segment.plane s))) l acc) /\
  (forall r acc,
     fold_left (fun n s => if fst (Segment.intersects s r) then u32 (n + 1) else n) l' acc
     = fold_left (fun n s => if fst (Segment.intersects s r) then u32 (n + 1) else n) l acc) /\
  (forall i d, Segment.plane (nth i l' d) = Segment.plane (nth i l d)).
Proof.
  induction 1 as [|s s' l l' Hs _ [IH1 [IH2 [IH3 IH4]]]].
  - repeat split; reflexivity.
  - assert (Hp : Segment.plane s' = Segment.plane s).
    { unfold geometry in Hs. injection Hs as -> _ _. reflexivity. }
    split; [|split; [|split]].
    + intros p. cbn [existsb]. rewrite IH1, (geometry_onBorder p Hs). reflexivity.
    + intros acc. cbn [fold_left]. rewrite IH2, Hp. reflexivity.
    + intros r acc. cbn [fold_left]. rewrite IH3, (geometry_intersects r Hs). reflexivity.
    + intros i d. destruct i as [|i]; cbn [nth]; [exact Hp | apply IH4].
Qed.

Lemma sameGeometry_answers (b b' : Border.t) :
  sameGeometry b b' -> sameAnswers b b'.
Proof.
  unfold sameGeometry. intros H.
  destruct (Forall2_geometry (sameGeometry_Forall2 _ _ H)) as [Hex [Hfold [Hcnt Hnth]]].
  assert (Hlen : length (Border.segments b') = length (Border.segments b)).
  { rewrite <- (length_map geometry (Border.segments b')), <- H. apply length_map. }
  assert (Hon : forall p, Border.onBorder b' p = Border.onBorder b p).
  { intros p. apply Hex. }
  assert (Htrim : forall p, Border.trimVertex b' p = Border.trimVertex b p).
  { intros p. unfold Border.trimVertex, Border.trimDirection, Border.countIntersections.
    rewrite Hon, Hfold, Hcnt. reflexivity. }
  unfold sameAnswers, Border.numSegments.
  split; [exact Hlen|]. split; [exact Hon|]. split; [exact Htrim|]. split.
  - intros p1 p2 p3. unfold Border.trimFace. rewrite !Htrim, !Hon. reflexivity.
  - unfold Border.onlyObtuseAngles. rewrite Hlen.
    destruct (2 <? length (Border.segments b)); [|reflexivity].
    rewrite (@forReturn_ext _ _ _ _
               (fun i =>
                  let s := Segment.ofPlane (Segment.plane (Border.segmentAt b i)) in
                  let nextS := Segment.ofPlane (Segment.plane (Border.segmentAt b (i + 1))) in
                  if flt (dot (normal (Segment.plane s)) (normal (Segment.plane nextS))) f0
                  then Some false else None)); [reflexivity|].
    intros i. cbn zeta. unfold Border.segmentAt. rewrite !Hnth. reflexivity.
Qed.

Lemma forEach_preserves {A B : Type} (body : A -> Result A) (g : A -> B) (l l' : list A) :
  (forall a a', body a = Ok a' -> g a' = g a) ->
  forEach body l = Ok l' -> map g l' = map g l.
Proof.
  intros Hg. revert l'. induction l as [|x l IH]; intros l' H.
  - injection H as <-. reflexivity.
  - cbn [forEach] in H. destruct (body x) as [x'|f] eqn:Hx; [|discriminate H].
    cbn [bind] in H. destruct (forEach body l) as [t'|f] eqn:Ht; [|discriminate H].
    injection H as <-. cbn [map]. rewrite (Hg x x' Hx), (IH t' eq_refl). reflexivity.
Qed.

Lemma geometry_recordVertex (index : N) (p : vec3) (s : Segment.t) :
  geometry (recordVertex index p s) = geometry s.
Proof. unfold recordVertex. destruct (accepts p s); reflexivity. Qed.

Lemma mutators_keep_geometry (b : Border.t) :
  sameGeometry b (Border.addPolyline b) /\
  sameGeometry b (Border.deleteEmptyPolylines b) /\
  (forall index p b', Border.addVertex b index p = Ok b' -> sameGeometry b b') /\
  (forall m b', Border.setNewIndices b m = Ok b' -> sameGeometry b b').
Proof.
  unfold sameGeometry. split; [|split; [|split]].
  - cbn [Border.addPolyline Border.segments]. rewrite map_map. reflexivity.
  - cbn [Border.deleteEmptyPolylines Border.segments]. rewrite map_map. reflexivity.
  - intros index p b' H. rewrite border_addVertex_eq in H.
    destruct (forallb _ (Border.segments b)); [|discriminate H].
    destruct (Border.onBorder b p); [|discriminate H].
    injection H as <-. cbn [Border.segments]. rewrite map_map.
    apply map_ext. intros s. symmetry. apply geometry_recordVertex.
  - intros m b' H. unfold Border.setNewIndices in H.
    destruct (forEach (fun s => Segment.setNewIndices s m) (Border.segments b))
      as [segs|f] eqn:Hall; [|discriminate H].
    injection H as <-. cbn [Border.segments]. symmetry.
    apply (@forEach_preserves _ _ _ geometry _ _) with (2 := Hall).
    intros s s' Hs. unfold Segment.setNewIndices in Hs.
    destruct (forEach (forEach (Segment.setNewIndex m)) (Segment.polylines s));
      [|discriminate Hs].
    injection Hs as <-. reflexivity.
Qed.

(** X9.  Bookkeeping never moves the border: after [addPolyline],
    [deleteEmptyPolylines], a successful [addVertex] or a successful
    [setNewIndices], the border has as many segments as before and
    [onBorder], [trimVertex], [trimFace] and [onlyObtuseAngles] answer
    every query as before. *)
Theorem bookkeeping_keeps_answers (b : Border.t) :
  sameAnswers b (Border.addPolyline b) /\
  sameAnswers b (Border.deleteEmptyPolylines b) /\
  (forall index p b', Border.addVertex b index p = Ok b' -> sameAnswers b b') /\
  (forall m b', Border.setNewIndices b m = Ok b' -> sameAnswers b b').
Proof.
  destruct (mutators_keep_geometry b) as [H1 [H2 [H3 H4]]].
  split; [apply sameGeometry_answers, H1|].
  split; [apply sameGeometry_answers, H2|].
  split.
  - intros index p b' H. apply sameGeometry_answers, (H3 index p b' H).
  - intros m b' H. apply sameGeometry_answers, (H4 m b' H).
Qed.

End GeometryFacts.

(** ** Opening a polyline and recording into it *)

Section RecordingFacts.
Context {SC : Scalar} {PR : Primitives}.

Lemma accepts_addPolyline (p : vec3) (s : Segment.t) :
  accepts p (Segment.addPolyline s) = accepts p s.
Proof. reflexivity. Qed.

Lemma hasOpenPolyline_addPolyline (s : Segment.t) :
  hasOpenPolyline (Segment.addPolyline s) = true.
Proof.
  unfold hasOpenPolyline, Segment.isEmpty_polylines, Segment.addPolyline.
  cbn [Segment.polylines Segment.withPolylines].
  destruct (Segment.polylines s); reflexivity.
Qed.

Lemma recordVertex_addPolyline (index : N) (p : vec3) (s : Segment.t) :
  recordVertex index p (Segment.addPolyline s) = startPolyline index p s.
Proof.
  unfold recordVertex, startPolyline. rewrite accepts_addPolyline.
  destruct (accepts p s); [|reflexivity].
  unfold Segment.addPolyline at 2. cbn [Segment.polylines Segment.withPolylines].
  rewrite pushToBack_last. reflexivity.
Qed.

(** X10.  Right after [addPolyline], [addVertex] cannot fail for want of
    an open polyline: for a point on the border it starts the polyline
    [index] in every segment that accepts the point and leaves the new
    polyline of the others empty; for a point off the border it stops on
    [assert (wasAdded)]. *)
Theorem addPolyline_addVertex (b : Border.t) (index : N) (p : vec3) :
  Border.addVertex (Border.addPolyline b) index p =
    if Border.onBorder b p
    then Ok {| Border.segments := map (startPolyline index p) (Border.segments b) |}
    else Abort AssertWasAdded.
Proof.
  rewrite border_addVertex_eq. cbn [Border.addPolyline Border.segments].
  assert (Hall : forallb (fun s => implb (accepts p s) (hasOpenPolyline s))
                   (map Segment.addPolyline (Border.segments b)) = true).
  { apply forallb_forall. intros s Hs. apply in_map_iff in Hs.
    destruct Hs as [s0 [<- _]]. rewrite hasOpenPolyline_addPolyline.
    destruct (accepts p (Segment.addPolyline s0)); reflexivity. }
  rewrite Hall. clear Hall.
  assert (Hon : Border.onBorder (Border.addPolyline b) p = Border.onBorder b p).
  { unfold Border.onBorder, Border.addPolyline. cbn [Border.segments].
    induction (Border.segments b) as [|s segs IH]; [reflexivity|].
    cbn [map existsb]. rewrite IH. reflexivity. }
  rewrite Hon. destruct (Border.onBorder b p); [|reflexivity].
  rewrite map_map. f_equal. f_equal. apply map_ext. intros s.
  apply recordVertex_addPolyline.
Qed.

Lemma storedIndices_recordVertex (index : N) (p : vec3) (s : Segment.t) :
  implb (accepts p s) (hasOpenPolyline s) = true ->
  storedIndices (recordVertex index p s) = storedAfter index p s /\
  length (Segment.polylines (recordVertex index p s)) = length (Segment.polylines s).
Proof.
  unfold recordVertex, storedAfter. destruct (accepts p s); [|split; reflexivity].
  cbn [implb]. unfold hasOpenPolyline, Segment.isEmpty_polylines, storedIndices.
  cbn [Segment.polylines Segment.withPolylines].
  destruct (Segment.polylines s) as [|q pls] eqn:E; [discriminate|]. intros _.
  assert (Hne : q :: pls <> []) by discriminate.
  destruct (exists_last Hne) as [init [open Hsplit]]. rewrite Hsplit.
  rewrite pushToBack_last. split.
  - rewrite !concat_app. cbn [concat]. rewrite !app_nil_r, app_assoc. reflexivity.
  - rewrite !length_app. reflexivity.
Qed.

(** X11.  A successful [addVertex] appends the index at the very end of
    the indices of each segment that accepts the point, changes no other
    stored index and no polyline count, and leaves the border with
    vertices. *)
Theorem addVertex_stores (b b' : Border.t) (index : N) (p : vec3) :
  Border.addVertex b index p = Ok b' ->
  map storedIndices (Border.segments b')
  = map (storedAfter index p) (Border.segments b) /\
  map (fun s => length (Segment.polylines s)) (Border.segments b')
  = map (fun s => length (Segment.polylines s)) (Border.segments b) /\
  Border.onBorder b p = true /\
  Border.hasVertices b' = true.
Proof.
  intros H. rewrite border_addVertex_eq in H.
  destruct (forallb _ (Border.segments b)) eqn:Hall; [|discriminate H].
  destruct (Border.onBorder b p) eqn:Hon; [|discriminate H].
  injection H as <-. cbn [Border.segments].
  rewrite forallb_forall in Hall.
  assert (Hst : map storedIndices (map (recordVertex index p) (Border.segments b))
                = map (storedAfter index p) (Border.segments b)).
  { rewrite map_map. apply map_ext_in. intros s Hs.
    apply storedIndices_recordVertex, Hall, Hs. }
  split; [exact Hst|]. split; [|split; [reflexivity|]].
  - rewrite map_map. apply map_ext_in. intros s Hs.
    apply storedIndices_recordVertex, Hall, Hs.
  - apply border_onBorder_iff in Hon. destruct Hon as [s [Hs Ha]].
    unfold Border.hasVertices. cbn [Border.segments].
    apply existsb_exists. exists (recordVertex index p s).
    split; [apply in_map, Hs|].
    rewrite hasVertices_stored.
    destruct (storedIndices_recordVertex index p s (Hall s Hs)) as [E _].
    rewrite E. unfold storedAfter, accepts. rewrite Ha.
    destruct (storedIndices s); reflexivity.
Qed.

End RecordingFacts.

(** ** A stroke of two points *)

Section TwoPointFacts.
Context {SC : Scalar} {PR : Primitives}.

(** X12.  For a stroke of two points the border is one unbounded plane:
    a point is on the border exactly when it is on that plane, and it is
    trimmed exactly when it is off the plane and the ray cast from it along
    the negated plane normal reaches the plane, which is a half-space
    test.  [onlyObtuseAngles] holds, and the one segment is the answer of
    [getSegment] for any two points of the plane. *)
Theorem make_two_points (cam : Camera) (points : list ivec2) (offset : float)
  (reverse : bool) (b : Border.t) :
  Border.numPoints points = 2 ->
  Border.make cam points offset reverse = Ok b ->
  Border.segments b = [Segment.ofPlane (solePlane cam points offset reverse)] /\
  (forall p, Border.onBorder b p = onPlane (solePlane cam points offset reverse) p) /\
  (forall p, Border.trimVertex b p
             = negb (onPlane (solePlane cam points offset reverse) p)
               && reaches (solePlane cam points offset reverse) p) /\
  Border.onlyObtuseAngles b = true /\
  (forall v1 v2,
     Border.getSegment b v1 v2 =
       if onPlane (solePlane cam points offset reverse) v1
          && onPlane (solePlane cam points offset reverse) v2
       then Ok (Segment.ofPlane (solePlane cam points offset reverse))
       else Abort Impossible).
Proof.
  intros Hn Hmake. rewrite make_eq, Hn in Hmake. injection Hmake as <-.
  assert (Hsegs : chain 2 cam points offset reverse
                  = [Segment.ofPlane (solePlane cam points offset reverse)]).
  { unfold chain, solePlane. destruct reverse; reflexivity. }
  cbn [Border.segments]. rewrite Hsegs.
  set (pl := solePlane cam points offset reverse).
  assert (Hon : forall p, Segment.onBorder (Segment.ofPlane pl) p = (onPlane pl p, false)).
  { intros p. unfold Segment.onBorder, Segment.isValidProjection.
    cbn [Segment.ofPlane Segment.edge1 Segment.edge2 Segment.plane Segment.edgeOnRay].
    destruct (onPlane pl p); reflexivity. }
  split; [reflexivity|]. split; [|split; [|split]].
  - intros p. unfold Border.onBorder. cbn [Border.segments existsb].
    rewrite Hon. cbn [fst]. apply orb_false_r.
  - intros p. unfold Border.trimVertex, Border.onBorder, Border.trimDirection,
      Border.countIntersections, reaches.
    cbn [Border.segments existsb fold_left]. rewrite Hon. cbn [fst].
    rewrite orb_false_r. destruct (onPlane pl p); [reflexivity|].
    cbn [negb andb]. unfold Segment.intersects, Segment.isValidProjection.
    cbn [Segment.ofPlane Segment.edge1 Segment.edge2 Segment.plane].
    destruct (intersectsRayPlane _ pl); reflexivity.
  - reflexivity.
  - intros v1 v2. unfold Border.getSegment. cbn [Border.segments Border.getSegmentFrom].
    rewrite !Hon. destruct (onPlane pl v1); [|reflexivity].
    destruct (onPlane pl v2); reflexivity.
Qed.

End TwoPointFacts.

(** ** The earlier variant *)

Section LegacyFacts.
Context {SC : Scalar} {PR : Primitives}.

(** X13.  The assertion that the earlier [isValidProjection] makes (the
    point is on the plane) never fails under the earlier [onBorder], which
    answers as the current [onBorder] does; under the earlier [intersects]
    it fails exactly when the ray meets the plane in a point that the
    plane's own test does not accept, and otherwise the earlier
    [intersects] answers as the current one. *)
Theorem legacy_agrees (s : Segment.t) (p : vec3) (r : PrimRay) :
  Legacy.onBorder s p = Some (Segment.onBorder s p) /\
  Legacy.isValidProjection s p
  = (if onPlane (Segment.plane s) p
     then Some (Segment.isValidProjection s p) else None) /\
  Legacy.intersects s r
  = match intersectsRayPlane r (Segment.plane s) with
    | Some d =>
        if onPlane (Segment.plane s) (pointAt r d)
        then Some (Segment.intersects s r) else None
    | None => Some (Segment.intersects s r)
    end.
Proof.
  assert (Hv : forall q, Legacy.isValidProjection s q
                         = if onPlane (Segment.plane s) q
                           then Some (Segment.isValidProjection s q) else None).
  { intros q. unfold Legacy.isValidProjection, Segment.isValidProjection.
    destruct (onPlane (Segment.plane s) q); reflexivity. }
  split; [|split; [apply Hv|]].
  - unfold Legacy.onBorder, Segment.onBorder. rewrite Hv.
    destruct (Segment.edgeOnRay (Segment.edge1 s) p); [reflexivity|].
    destruct (Segment.edgeOnRay (Segment.edge2 s) p); [reflexivity|].
    destruct (onPlane (Segment.plane s) p); reflexivity.
  - unfold Legacy.intersects, Segment.intersects.
    destruct (intersectsRayPlane r (Segment.plane s)) as [d|]; [|reflexivity].
    rewrite Hv. destruct (onPlane (Segment.plane s) (pointAt r d)); reflexivity.
Qed.

End LegacyFacts.

(** ** Short strokes and the obtuse-angle check *)

Section ShortStrokeFacts.
Context {SC : Scalar} {PR : Primitives}.

(** X14.  A border constructed from two or three points always passes
    [onlyObtuseAngles], whatever the angle between its planes: the check
    looks at chains of more than two segments only. *)
Theorem make_short_onlyObtuseAngles (cam : Camera) (points : list ivec2)
  (offset : float) (reverse : bool) (b : Border.t) :
  Border.numPoints points <= 3 ->
  Border.make cam points offset reverse = Ok b ->
  Border.numSegments b <= 2 /\ Border.onlyObtuseAngles b = true.
Proof.
  intros Hn Hmake. rewrite make_eq in Hmake.
  destruct (2 <=? Border.numPoints points) eqn:H2; [|discriminate Hmake].
  apply Nat.leb_le in H2. injection Hmake as <-.
  assert (Hlen : length (chain (Border.numPoints points) cam points offset reverse) <= 2).
  { rewrite <- (length_map arity), chain_arity, chainArities_length by exact H2. lia. }
  split; [exact Hlen|].
  unfold Border.onlyObtuseAngles. cbn [Border.segments].
  apply Nat.ltb_ge in Hlen. rewrite Hlen. reflexivity.
Qed.

End ShortStrokeFacts.

(** ** The properties at work on the exact instance *)

Import Exact.

Lemma zmidpoint_comm (a c : @vec3 Exact.ZScalar) :
  Exact.zmidpoint a c = Exact.zmidpoint c a.
Proof.
  unfold Exact.zmidpoint. simpl.
  rewrite (Z.add_comm (vx a)), (Z.add_comm (vy a)), (Z.add_comm (vz a)). reflexivity.
Qed.

(** A point behind the middle segment of the four-point stroke: the ray
    meets that segment only, and the point is trimmed. *)
Lemma trimVertex_parity_witness :
  Border.onBorder (Exact.border Exact.stroke4 false) Exact.inside = false /\
  Border.trimVertex (Exact.border Exact.stroke4 false) Exact.inside = true /\
  length (intersected (Exact.border Exact.stroke4 false)
            (mkRay Exact.inside (Border.trimDirection (Exact.border Exact.stroke4 false))))
  = 1 /\
  Border.trimDirection (Exact.border Exact.stroke4 false)
  = vneg (sumNormals (Exact.border Exact.stroke4 false)).
Proof.
  destruct (@trimVertex_parity Exact.ZScalar Exact.ZPrimitives
              (Exact.border Exact.stroke4 false) Exact.inside eq_refl) as [H1 H2].
  split; [reflexivity|]. split; [rewrite H1; reflexivity|]. split; [reflexivity|].
  apply H2; [reflexivity | intros a n; simpl; lia].
Defined.

(** A point on the ray shared by two segments is not trimmed. *)
Lemma trimVertex_onBorder_witness :
  Border.onBorder (Exact.border Exact.stroke4 false) Exact.onSharedEdge = true /\
  Border.trimVertex (Exact.border Exact.stroke4 false) Exact.onSharedEdge = false.
Proof.
  split; [reflexivity|].
  apply (@trimVertex_onBorder Exact.ZScalar Exact.ZPrimitives). reflexivity.
Defined.

(** Four points, forwards: three segments. *)
Lemma make_chain_witness :
  2 <= Border.numPoints Exact.stroke4 /\
  exists b,
    Border.make Exact.pinhole Exact.stroke4 0%Z false = Ok b /\
    length (Border.segments b) = 3 /\
    map arity (Border.segments b) = [PlaneRay; RayRay; RayPlane].
Proof.
  assert (H : 2 <= Border.numPoints Exact.stroke4) by (vm_compute; lia).
  split; [exact H|].
  destruct (@make_chain Exact.ZScalar Exact.ZPrimitives Exact.pinhole Exact.stroke4
              0%Z false H) as [_ [b [Hb [_ [_ Hn]]]]].
  exists b. split; [exact Hb|].
  apply Hn. vm_compute. lia.
Defined.

(** Four points, backwards: the ray of point 2 joins segments 0 and 1. *)
Lemma make_shared_edges_witness :
  exists s s' r,
    nth_error (Border.segments (Exact.border Exact.stroke4 true)) 0 = Some s /\
    nth_error (Border.segments (Exact.border Exact.stroke4 true)) 1 = Some s' /\
    Segment.edge2 s = Some r /\ Segment.edge1 s' = Some r /\
    r = Border.makeRay Exact.pinhole Exact.stroke4 0%Z true 2.
Proof.
  apply (@make_shared_edges Exact.ZScalar Exact.ZPrimitives Exact.pinhole Exact.stroke4
           0%Z true (Exact.border Exact.stroke4 true) 0).
  - vm_compute. lia.
  - reflexivity.
  - vm_compute. lia.
Defined.

(** A face with one trimmed vertex, in two orders of its vertices. *)
Lemma trimFace_symmetric_witness :
  Border.trimFace (Exact.border Exact.stroke4 false)
    Exact.inside Exact.onFirstPlane Exact.outside
  = Border.trimFace (Exact.border Exact.stroke4 false)
      Exact.outside Exact.onFirstPlane Exact.inside.
Proof.
  apply (@trimFace_symmetric Exact.ZScalar Exact.ZPrimitives
           (Exact.border Exact.stroke4 false)
           Exact.inside Exact.onFirstPlane Exact.outside zmidpoint_comm).
Defined.

(** A fresh border refuses a vertex, on its border or not. *)
Lemma make_fresh_witness :
  Border.hasVertices (Exact.border Exact.stroke4 false) = false /\
  Border.addVertex (Exact.border Exact.stroke4 false) 7%N Exact.onSharedEdge
  = Abort AssertPolylineOpen /\
  Border.addVertex (Exact.border Exact.stroke4 false) 7%N Exact.inside
  = Abort AssertWasAdded.
Proof.
  destruct (@make_fresh Exact.ZScalar Exact.ZPrimitives Exact.pinhole Exact.stroke4
              0%Z false (Exact.border Exact.stroke4 false) eq_refl)
    as [_ [Hv [_ Ha]]].
  split; [exact Hv|]. split.
  - rewrite Ha. reflexivity.
  - rewrite Ha. reflexivity.
Defined.

(** With a polyline open, a vertex on the shared ray goes to both segments
    that share it, and to no other. *)
Lemma border_addVertex_witness :
  Border.addVertex Exact.opened 7%N Exact.onSharedEdge
  = Ok {| Border.segments :=
            map (recordVertex 7%N Exact.onSharedEdge) (Border.segments Exact.opened) |} /\
  map Segment.polylines
      (map (recordVertex 7%N Exact.onSharedEdge) (Border.segments Exact.opened))
  = [[[7%N]]; [[7%N]]; [[]]].
Proof.
  split; [|reflexivity].
  apply (@border_addVertex_cases Exact.ZScalar Exact.ZPrimitives
           Exact.opened 7%N Exact.onSharedEdge).
  - exists (nth 0 (Border.segments Exact.opened) (Segment.ofPlane (mkPlane vzero vzero))).
    split; [left; reflexivity | reflexivity].
  - intros s [<- | [<- | [<- | []]]] _; discriminate.
Defined.

(** Renumbering by the identity on five indices. *)
Lemma setNewIndices_identity_witness :
  Border.setNewIndices
    {| Border.segments :=
         [Segment.withPolylines
            (Segment.ofPlane (mkPlane vzero (Vec3 0%Z 1%Z 0%Z))) [[0; 3]; []; [4]]%N] |}
    (identityMapping 5)
  = Ok {| Border.segments :=
            [Segment.withPolylines
               (Segment.ofPlane (mkPlane vzero (Vec3 0%Z 1%Z 0%Z))) [[0; 3]; []; [4]]%N] |}.
Proof.
  destruct (@setNewIndices_identity Exact.ZScalar Exact.ZPrimitives 5)
    as [_ [Hborder Hvalid]].
  apply Hborder.
  intros s i [<- | []] Hi. apply Hvalid; [vm_compute; discriminate|].
  destruct Hi as [<- | [<- | [<- | []]]]; vm_compute; lia.
Defined.

(** A stroke that goes out and comes back yields two segments whose plane
    normals are opposite, and [onlyObtuseAngles] accepts it. *)
Lemma onlyObtuseAngles_two_segments :
  Border.make Exact.pinhole Exact.strokeBack 0%Z false
  = Ok (Exact.border Exact.strokeBack false) /\
  length (Border.segments (Exact.border Exact.strokeBack false)) = 2 /\
  reflexed (Exact.border Exact.strokeBack false) /\
  Border.onlyObtuseAngles (Exact.border Exact.strokeBack false) = true.
Proof.
  split; [reflexivity|]. split; [reflexivity|]. split; [|reflexivity].
  exists 0. unfold negativeAt. eexists. eexists.
  split; [reflexivity|]. split; reflexivity.
Defined.

(** With a third segment after the same turn, it refuses. *)
Lemma onlyObtuseAngles_cases_witness :
  2 < length (Border.segments (Exact.border Exact.strokeZigzag false)) /\
  reflexed (Exact.border Exact.strokeZigzag false) /\
  Border.onlyObtuseAngles (Exact.border Exact.strokeZigzag false) = false.
Proof.
  assert (H : 2 < length (Border.segments (Exact.border Exact.strokeZigzag false)) /\
              reflexed (Exact.border Exact.strokeZigzag false)).
  { split; [vm_compute; lia|].
    exists 0. unfold negativeAt. eexists. eexists.
    split; [reflexivity|]. split; reflexivity. }
  destruct H as [H1 H2]. split; [exact H1|]. split; [exact H2|].
  apply (@onlyObtuseAngles_cases Exact.ZScalar Exact.ZPrimitives
           (Exact.border Exact.strokeZigzag false)).
  split; assumption.
Defined.

(** On the four-point stroke: a point on the shared ray is an edge point of
    both segments that share it; a point of the first plane is a plane
    point of the first segment only. *)
Lemma segment_onBorder_witness :
  map (fun s => Segment.onBorder s Exact.onSharedEdge)
      (Border.segments (Exact.border Exact.stroke4 false))
  = [(true, true); (true, true); (false, false)] /\
  map (fun s => Segment.onBorder s Exact.onFirstPlane)
      (Border.segments (Exact.border Exact.stroke4 false))
  = [(true, false); (false, false); (false, false)] /\
  Segment.onBorder
    (nth 0 (Border.segments (Exact.border Exact.stroke4 false))
         (Segment.ofPlane (mkPlane vzero vzero)))
    Exact.onFirstPlane <> (false, true).
Proof.
  split; [reflexivity|]. split; [reflexivity|].
  apply (@segment_onBorder_cases Exact.ZScalar Exact.ZPrimitives).
Defined.

(** *** Further properties on the exact instance *)

(** The four-point stroke backwards is the reversed stroke forwards. *)
Lemma make_reverse_witness :
  Border.make Exact.pinhole Exact.stroke4 0%Z true
  = Border.make Exact.pinhole (rev Exact.stroke4) 0%Z false.
Proof.
  apply (@make_reverse Exact.ZScalar Exact.ZPrimitives Exact.pinhole Exact.stroke4 0%Z).
  reflexivity.
Defined.

(** Of the three segments of the four-point stroke the first has a
    trailing ray and the last has none. *)
Lemma make_edge_witness :
  (exists s r,
     Border.segment (Exact.border Exact.stroke4 false) 0 = Ok s /\
     Segment.edge s = Ok r /\ Segment.edge2 s = Some r) /\
  (exists s,
     Border.segment (Exact.border Exact.stroke4 false) 2 = Ok s /\
     Segment.edge s = Abort AssertEdge) /\
  Border.segment (Exact.border Exact.stroke4 false) 3 = Abort AssertSegmentIndex.
Proof.
  split; [|split].
  - apply (@make_edge Exact.ZScalar Exact.ZPrimitives Exact.pinhole Exact.stroke4
             0%Z false (Exact.border Exact.stroke4 false) 0 eq_refl).
    vm_compute. lia.
  - apply (@make_edge Exact.ZScalar Exact.ZPrimitives Exact.pinhole Exact.stroke4
             0%Z false (Exact.border Exact.stroke4 false) 2 eq_refl).
    reflexivity.
  - apply (@make_edge Exact.ZScalar Exact.ZPrimitives Exact.pinhole Exact.stroke4
             0%Z false (Exact.border Exact.stroke4 false) 3 eq_refl).
    vm_compute. lia.
Defined.

(** Two rotations of three indices, one after the other, are the third. *)
Lemma setNewIndices_compose_witness :
  Border.setNewIndices (Exact.holding [[0; 2]; [1]]%N)
    (composeMapping [1; 2; 0]%N [1; 2; 0]%N)
  = Ok (Exact.holding [[2; 1]; [0]]%N).
Proof.
  apply (@setNewIndices_compose Exact.ZScalar Exact.ZPrimitives
           (Exact.holding [[0; 2]; [1]]%N) (Exact.holding [[1; 0]; [2]]%N)
           (Exact.holding [[2; 1]; [0]]%N) [1; 2; 0]%N [1; 2; 0]%N).
  - reflexivity.
  - reflexivity.
Defined.

(** The vertex on the shared ray ends up last in the two segments that
    share the ray, and nowhere else. *)
Lemma addVertex_stores_witness :
  map storedIndices
      (map (recordVertex 7%N Exact.onSharedEdge) (Border.segments Exact.opened))
  = [[7%N]; [7%N]; []] /\
  Border.hasVertices
    {| Border.segments :=
         map (recordVertex 7%N Exact.onSharedEdge) (Border.segments Exact.opened) |}
  = true.
Proof.
  destruct (@addVertex_stores Exact.ZScalar Exact.ZPrimitives Exact.opened
              {| Border.segments :=
                   map (recordVertex 7%N Exact.onSharedEdge)
                       (Border.segments Exact.opened) |}
              7%N Exact.onSharedEdge eq_refl) as [H1 [_ [_ H4]]].
  split; [|exact H4].
  cbn [Border.segments] in H1. rewrite H1. reflexivity.
Defined.

(** The two-point stroke: the plane y = 0 through the camera; a point
    above it is trimmed, a point below it is not, a point on it is on the
    border. *)
Lemma make_two_points_witness :
  Border.trimVertex (Exact.border Exact.stroke2 false) (Vec3 0%Z 5%Z (-3)%Z) = true /\
  Border.trimVertex (Exact.border Exact.stroke2 false) (Vec3 0%Z (-5)%Z (-3)%Z) = false /\
  Border.onBorder (Exact.border Exact.stroke2 false) (Vec3 0%Z 0%Z (-3)%Z) = true.
Proof.
  destruct (@make_two_points Exact.ZScalar Exact.ZPrimitives Exact.pinhole Exact.stroke2
              0%Z false (Exact.border Exact.stroke2 false) eq_refl eq_refl)
    as [_ [Hon [Htrim _]]].
  split; [rewrite Htrim; reflexivity|].
  split; [rewrite Htrim; reflexivity|].
  rewrite Hon. reflexivity.
Defined.

(** The stroke that goes out and comes back has three points. *)
Lemma make_short_onlyObtuseAngles_witness :
  Border.numSegments (Exact.border Exact.strokeBack false) <= 2 /\
  Border.onlyObtuseAngles (Exact.border Exact.strokeBack false) = true.
Proof.
  apply (@make_short_onlyObtuseAngles Exact.ZScalar Exact.ZPrimitives Exact.pinhole
           Exact.strokeBack 0%Z false (Exact.border Exact.strokeBack false)).
  - vm_compute. lia.
  - reflexivity.
Defined.

(** On the four-point stroke, a point of the first plane and a point of
    the shared ray belong to the first segment, in either order; two
    points of the shared ray belong to no segment. *)
Lemma getSegment_first_witness :
  Border.getSegment (Exact.border Exact.stroke4 false) Exact.onFirstPlane Exact.onSharedEdge
  = Border.segment (Exact.border Exact.stroke4 false) 0 /\
  Border.getSegment (Exact.border Exact.stroke4 false) Exact.onSharedEdge Exact.onSharedEdge
  = Abort Impossible.
Proof.
  split; [reflexivity|].
  apply (@getSegment_first Exact.ZScalar Exact.ZPrimitives
           (Exact.border Exact.stroke4 false) Exact.onSharedEdge Exact.onSharedEdge).
  intros s [<- | [<- | [<- | []]]]; reflexivity.
Defined.

(** No points, no border. *)
Lemma make_refuses_witness :
  Border.make Exact.pinhole [] 0%Z false = Abort AssertNumPoints /\
  Border.make Exact.pinhole [(3, 4)%Z] 0%Z true = Abort AssertNumPoints.
Proof.
  split.
  - apply (@make_refuses Exact.ZScalar Exact.ZPrimitives Exact.pinhole [] 0%Z false).
    vm_compute. lia.
  - apply (@make_refuses Exact.ZScalar Exact.ZPrimitives Exact.pinhole [(3, 4)%Z] 0%Z true).
    vm_compute. lia.
Defined.

(** Pruning keeps the one polyline that has a vertex. *)
Lemma deleteEmptyPolylines_prunes_witness :
  Border.deleteEmptyPolylines (Exact.holding [[]; [3]; []]%N) = Exact.holding [[3]]%N /\
  map storedIndices
      (Border.segments (Border.deleteEmptyPolylines (Exact.holding [[]; [3]; []]%N)))
  = map storedIndices (Border.segments (Exact.holding [[]; [3]; []]%N)).
Proof.
  split; [reflexivity|].
  apply (@deleteEmptyPolylines_prunes Exact.ZScalar Exact.ZPrimitives
           (Exact.holding [[]; [3]; []]%N)).
Defined.

(** A stored index beyond the mapping stops the renumbering. *)
Lemma setNewIndices_renumbers_witness :
  Border.setNewIndices (Exact.holding [[0; 5]]%N) [1; 2; 0]%N = Abort OutOfRange /\
  exists s i,
    In s (Border.segments (Exact.holding [[0; 5]]%N)) /\ In i (storedIndices s) /\
    lookupFails [1; 2; 0]%N i OutOfRange.
Proof.
  split; [reflexivity|].
  apply (@setNewIndices_renumbers Exact.ZScalar Exact.ZPrimitives
           (Exact.holding [[0; 5]]%N) [1; 2; 0]%N).
  reflexivity.
Defined.

(** A polyline opened and a vertex on the shared ray recorded: the border
    still answers as the fresh one. *)
Lemma bookkeeping_keeps_answers_witness :
  sameAnswers (Exact.border Exact.stroke4 false) Exact.opened /\
  sameAnswers Exact.opened
    {| Border.segments :=
         map (recordVertex 7%N Exact.onSharedEdge) (Border.segments Exact.opened) |}.
Proof.
  split.
  - apply (@bookkeeping_keeps_answers Exact.ZScalar Exact.ZPrimitives
             (Exact.border Exact.stroke4 false)).
  - apply (@bookkeeping_keeps_answers Exact.ZScalar Exact.ZPrimitives Exact.opened)
      with (index := 7%N) (p := Exact.onSharedEdge).
    reflexivity.
Defined.

(** Opening a polyline on the fresh four-point border and offering the
    point of the shared ray. *)
Lemma addPolyline_addVertex_witness :
  Border.addVertex (Border.addPolyline (Exact.border Exact.stroke4 false))
                   7%N Exact.onSharedEdge
  = Ok {| Border.segments :=
            map (startPolyline 7%N Exact.onSharedEdge)
                (Border.segments (Exact.border Exact.stroke4 false)) |} /\
  Border.addVertex (Border.addPolyline (Exact.border Exact.stroke4 false))
                   7%N Exact.inside
  = Abort AssertWasAdded.
Proof.
  split.
  - exact (@addPolyline_addVertex Exact.ZScalar Exact.ZPrimitives
             (Exact.border Exact.stroke4 false) 7%N Exact.onSharedEdge).
  - exact (@addPolyline_addVertex Exact.ZScalar Exact.ZPrimitives
             (Exact.border Exact.stroke4 false) 7%N Exact.inside).
Defined.

(** With the integer division of the exact instance the ray from (0,5,0)
    along (0,-2,0) is reported to meet the plane y = 0 at parameter 2,
    in the point (0,1,0) off the plane: the earlier [intersects] stops on
    its assertion there, the current one answers. *)
Lemma legacy_agrees_witness :
  Legacy.intersects (Segment.ofPlane (mkPlane vzero (Vec3 0%Z 1%Z 0%Z)))
                    (mkRay (Vec3 0%Z 5%Z 0%Z) (Vec3 0%Z (-2)%Z 0%Z))
  = None /\
  Segment.intersects (Segment.ofPlane (mkPlane vzero (Vec3 0%Z 1%Z 0%Z)))
                     (mkRay (Vec3 0%Z 5%Z 0%Z) (Vec3 0%Z (-2)%Z 0%Z))
  = (true, Some 2%Z) /\
  Legacy.onBorder (Segment.ofPlane (mkPlane vzero (Vec3 0%Z 1%Z 0%Z))) (Vec3 0%Z 1%Z 0%Z)
  = Some (false, false).
Proof.
  destruct (@legacy_agrees Exact.ZScalar Exact.ZPrimitives
              (Segment.ofPlane (mkPlane vzero (@Vec3 Exact.ZScalar 0%Z 1%Z 0%Z)))
              (@Vec3 Exact.ZScalar 0%Z 1%Z 0%Z)
              (mkRay (@Vec3 Exact.ZScalar 0%Z 5%Z 0%Z) (@Vec3 Exact.ZScalar 0%Z (-2)%Z 0%Z)))
    as [Hon [_ Hint]].
  split; [rewrite Hint; reflexivity|]. split; [reflexivity|].
  rewrite Hon. reflexivity.
Defined.

(** The first segment, whichever point comes first. *)
Lemma getSegment_symmetric_witness :
  Border.getSegment (Exact.border Exact.stroke4 false) Exact.onSharedEdge Exact.onFirstPlane
  = Border.segment (Exact.border Exact.stroke4 false) 0.
Proof.
  rewrite (@getSegment_symmetric Exact.ZScalar Exact.ZPrimitives
             (Exact.border Exact.stroke4 false) Exact.onSharedEdge Exact.onFirstPlane).
  reflexivity.
Defined.
